(** * libiproute2: FOU and bridge-port option grammars

    A shallow embedding of [ip/ipfou.c] and [ip/iplink_bridge_slave.c].
    Token vectors ([argc]/[argv]) are lists of strings, the netlink request
    under construction is a record holding the aligned length and the
    attributes appended so far, and the C functions run in a small monad
    that threads the request, what was written to stderr and what was
    handed to the kernel, and that can leave through one of the library's
    terminating helpers. *)

From Stdlib Require Import ZArith String Ascii Bool List Lia.
Import ListNotations.

Local Open Scope string_scope.
Local Open Scope Z_scope.

(** ** Characters that a string literal cannot hold *)

Definition dq : string := String (ascii_of_nat 34) EmptyString.
Definition nl : string := String (ascii_of_nat 10) EmptyString.

(** ** Kernel constants (linux/fou.h, linux/if_link.h, linux/if_bridge.h,
       linux/netlink.h, sys/socket.h); their headers are not part of the
       repository, the values are the kernel's wire contract. *)

Definition AF_INET : Z := 2.
Definition AF_INET6 : Z := 10.

Definition NLM_F_REQUEST : Z := 1.
Definition NLMSG_HDRLEN : Z := 16.
Definition GENL_HDRLEN : Z := 4.

Definition FOU_GENL_VERSION : Z := 1.
Definition FOU_CMD_ADD : Z := 1.
Definition FOU_CMD_DEL : Z := 2.
Definition FOU_CMD_GET : Z := 3.

Definition FOU_ATTR_PORT : Z := 1.
Definition FOU_ATTR_AF : Z := 2.
Definition FOU_ATTR_IPPROTO : Z := 3.
Definition FOU_ATTR_TYPE : Z := 4.
Definition FOU_ATTR_MAX : Z := 5.

Definition FOU_ENCAP_DIRECT : Z := 1.
Definition FOU_ENCAP_GUE : Z := 2.

Definition BR_STATE_DISABLED : Z := 0.
Definition BR_STATE_LISTENING : Z := 1.
Definition BR_STATE_LEARNING : Z := 2.
Definition BR_STATE_FORWARDING : Z := 3.
Definition BR_STATE_BLOCKING : Z := 4.

Definition IFLA_BRPORT_STATE : Z := 1.
Definition IFLA_BRPORT_PRIORITY : Z := 2.
Definition IFLA_BRPORT_COST : Z := 3.
Definition IFLA_BRPORT_MODE : Z := 4.
Definition IFLA_BRPORT_GUARD : Z := 5.
Definition IFLA_BRPORT_PROTECT : Z := 6.
Definition IFLA_BRPORT_FAST_LEAVE : Z := 7.
Definition IFLA_BRPORT_LEARNING : Z := 8.
Definition IFLA_BRPORT_UNICAST_FLOOD : Z := 9.
Definition IFLA_BRPORT_PROXYARP : Z := 10.
Definition IFLA_BRPORT_PROXYARP_WIFI : Z := 12.
Definition IFLA_BRPORT_FLUSH : Z := 24.
Definition IFLA_BRPORT_MULTICAST_ROUTER : Z := 25.
Definition IFLA_BRPORT_MCAST_FLOOD : Z := 27.
Definition IFLA_BRPORT_VLAN_TUNNEL : Z := 29.
Definition IFLA_BRPORT_GROUP_FWD_MASK : Z := 31.
Definition IFLA_BRPORT_NEIGH_SUPPRESS : Z := 32.

(** ** Netlink messages *)

(** One attribute record: the 16-bit type and the payload bytes.  The
    length field of the wire header is [RTA_LENGTH] of the payload. *)
Record rtattr := mk_rtattr { rta_type : Z; rta_data : list Z }.

(** A request: the envelope fields the two commands set, the generic
    netlink sub-header, and the attributes appended after it. *)
Record nlmsghdr := mk_nlmsghdr {
  nlmsg_len : Z;
  nlmsg_type : Z;
  nlmsg_flags : Z;
  genl_cmd : Z;
  genl_version : Z;
  attrs : list rtattr
}.

Definition NLMSG_ALIGN (len : Z) : Z := Z.land (len + 3) (Z.lnot 3).
Definition RTA_ALIGN (len : Z) : Z := Z.land (len + 3) (Z.lnot 3).
Definition RTA_LENGTH (len : Z) : Z := RTA_ALIGN 4 + len.
Definition NLMSG_LENGTH (len : Z) : Z := len + NLMSG_HDRLEN.

Definition rta_len (a : rtattr) : Z := RTA_LENGTH (Z.of_nat (length (rta_data a))).

(** ** Byte order *)

Definition bswap_16 (v : Z) : Z :=
  Z.lor (Z.shiftl (Z.land v 255) 8) (Z.land (Z.shiftr v 8) 255).

(** Modelled from the spec: [htons] and [ntohs] come from the C library;
    the spec has the FOU port written in network byte order and read back
    through the inverse network-to-host conversion.  On a little-endian
    host both swap the two bytes, on a big-endian host both are the
    identity. *)
Definition htons (little_endian : bool) (v : Z) : Z :=
  if little_endian then bswap_16 v else Z.land v 65535.
Definition ntohs (little_endian : bool) (v : Z) : Z :=
  if little_endian then bswap_16 v else Z.land v 65535.

(** The bytes of a 16-bit and of a 32-bit object in the host's memory. *)
Definition u16_bytes (little_endian : bool) (v : Z) : list Z :=
  if little_endian then [Z.land v 255; Z.land (Z.shiftr v 8) 255]
  else [Z.land (Z.shiftr v 8) 255; Z.land v 255].

Definition u32_bytes (little_endian : bool) (v : Z) : list Z :=
  let b i := Z.land (Z.shiftr v (8 * i)) 255 in
  if little_endian then [b 0; b 1; b 2; b 3] else [b 3; b 2; b 1; b 0].

(** ** Outcomes of a command function *)

(** The ways a function leaves without returning to its caller. *)
Inductive exit_path :=
| Invarg (msg arg : string)
| IncompleteCommand
| IprtExit (code : Z).

Inductive res (A : Type) :=
| Val (a : A)
| Stopped (e : exit_path).
Arguments Val {A} a.
Arguments Stopped {A} e.

(** What a command can change: the request [n] points to, stderr, and the
    requests given to [rtnl_talk]. *)
Record state := mk_state {
  nlmsg : nlmsghdr;
  stderr : list string;
  sent : list nlmsghdr
}.

Definition M (A : Type) : Type := state -> res A * state.

Definition ret {A} (a : A) : M A := fun s => (Val a, s).

Definition bind {A B} (m : M A) (k : A -> M B) : M B :=
  fun s => match m s with
           | (Val a, s') => k a s'
           | (Stopped e, s') => (Stopped e, s')
           end.

Definition leave {A} (e : exit_path) : M A := fun s => (Stopped e, s).

Notation "x <- m ;; k" := (bind m (fun x => k))
  (at level 61, m at next level, right associativity).
Notation "m ;; k" := (bind m (fun _ => k))
  (at level 61, right associativity).

Definition fprintf_stderr (text : string) : M unit :=
  fun s => (Val tt, mk_state (nlmsg s) (stderr s ++ [text])%list (sent s)).

Definition with_nlmsg (f : nlmsghdr -> Z * nlmsghdr) : M Z :=
  fun s => let '(rc, n') := f (nlmsg s) in
           (Val rc, mk_state n' (stderr s) (sent s)).

(** C truth of an [int] used as a condition. *)
Definition truthy (z : Z) : bool := negb (z =? 0).

(** ** libnetlink: appending attributes *)

(** Modelled from the spec: [addattr_l] and its typed wrappers live in
    lib/libnetlink.c, which is not among the sources.  The spec's
    [append] writes the header and the value, pads to the alignment
    boundary, and fails when the declared capacity would be exceeded; a
    failed append leaves the message as it was. *)
Definition addattr_l (n : nlmsghdr) (maxlen type : Z) (data : list Z)
  : Z * nlmsghdr :=
  let len := RTA_LENGTH (Z.of_nat (length data)) in
  if NLMSG_ALIGN (nlmsg_len n) + RTA_ALIGN len >? maxlen then (-1, n)
  else (0, mk_nlmsghdr (NLMSG_ALIGN (nlmsg_len n) + RTA_ALIGN len)
             (nlmsg_type n) (nlmsg_flags n) (genl_cmd n) (genl_version n)
             (attrs n ++ [mk_rtattr type data])%list).

Definition rta_getattr_u8 (rta : rtattr) : Z := nth 0 (rta_data rta) 0.

Definition rta_getattr_u16 (little_endian : bool) (rta : rtattr) : Z :=
  let b0 := nth 0 (rta_data rta) 0 in
  let b1 := nth 1 (rta_data rta) 0 in
  if little_endian then Z.lor b0 (Z.shiftl b1 8) else Z.lor (Z.shiftl b0 8) b1.

(** The indexed table [struct rtattr *tb[max + 1]]: absent slots are NULL. *)
Definition rtattr_table : Type := Z -> option rtattr.

Definition tb_empty : rtattr_table := fun _ => None.
Definition tb_store (tb : rtattr_table) (i : Z) (rta : rtattr) : rtattr_table :=
  fun j => if j =? i then Some rta else tb j.

Definition RTA_OK (rta : rtattr) (len : Z) : bool :=
  (4 <=? len) && (4 <=? rta_len rta) && (rta_len rta <=? len).

(** Modelled from the spec: [parse_rtattr] (lib/libnetlink.c) scans the
    records left to right, stores a record at the index of its type when
    the type is at most [max], skips larger types, and stops at a record
    whose declared length overruns what is left.  A slot that is already
    filled is kept. *)
Fixpoint parse_rtattr_from (tb : rtattr_table) (max : Z) (rtas : list rtattr)
    (len : Z) : rtattr_table :=
  match rtas with
  | [] => tb
  | rta :: rest =>
      if RTA_OK rta len then
        parse_rtattr_from
          (if (rta_type rta <=? max) &&
              match tb (rta_type rta) with None => true | Some _ => false end
           then tb_store tb (rta_type rta) rta else tb)
          max rest (len - RTA_ALIGN (rta_len rta))
      else tb
  end.

Definition parse_rtattr (max : Z) (rtas : list rtattr) (len : Z) : rtattr_table :=
  parse_rtattr_from tb_empty max rtas len.

(** ** What the program takes from outside the repository

    lib/utils.c, the C library and the kernel peer are collaborators: the
    development is parametric in them. *)
Record library := mk_library {
  (** [matches(cmd, pattern)]: 0 when the token selects the keyword. *)
  matches : string -> string -> Z;
  (** [get_u8], [get_u16], [get_u32] with their base argument: the parsed
      value, or [None] for the non-zero failure result. *)
  get_u8 : string -> Z -> option Z;
  get_u16 : string -> Z -> option Z;
  get_u32 : string -> Z -> option Z;
  (** [getprotobyname]: [p_proto] of the entry, or [None] for NULL. *)
  getprotobyname : string -> option Z;
  (** The result of [rtnl_talk] on a request. *)
  rtnl_talk_result : nlmsghdr -> Z;
  (** The family id stored by [genl_init_handle]. *)
  genl_family : Z;
  (** Byte order of the host. *)
  little_endian : bool;
  (** [family_name] of rt_names. *)
  family_name : Z -> string
}.

Section Program.

Variable L : library.

Definition addattr (maxlen type : Z) : M Z :=
  with_nlmsg (fun n => addattr_l n maxlen type []).
Definition addattr8 (maxlen type data : Z) : M Z :=
  with_nlmsg (fun n => addattr_l n maxlen type [Z.land data 255]).
Definition addattr16 (maxlen type data : Z) : M Z :=
  with_nlmsg (fun n => addattr_l n maxlen type (u16_bytes (little_endian L) data)).
Definition addattr32 (maxlen type data : Z) : M Z :=
  with_nlmsg (fun n => addattr_l n maxlen type (u32_bytes (little_endian L) data)).

(** Modelled from the spec: [iprt_exit], [invarg] and [incomplete_command]
    (iprt.h, lib/utils.c) are not among the sources.  The spec has a usage
    error end the invocation with a non-zero exit, through the standard
    invalid-argument path where a value is wrong or missing; none of the
    three returns to its caller. *)
Definition iprt_exit {A} (code : Z) : M A := leave (IprtExit code).
Definition invarg (msg arg : string) : M Z := leave (Invarg msg arg).
Definition incomplete_command {A} : M A := leave IncompleteCommand.

(** Modelled from the spec: [get_be16] (lib/utils.c) is [get_u16]
    followed by the host-to-network conversion of the value. *)
Definition get_be16 (arg : string) (base : Z) : option Z :=
  match get_u16 L arg base with
  | Some v => Some (htons (little_endian L) v)
  | None => None
  end.

(** Modelled from the spec: [rtnl_talk] (lib/libnetlink.c) is the
    single exchange: it sends the request and reports a failed exchange
    by a negative result. *)
Definition rtnl_talk : M Z :=
  fun s => (Val (rtnl_talk_result L (nlmsg s)),
            mk_state (nlmsg s) (stderr s) (sent s ++ [nlmsg s])%list).

(** [NEXT_ARG()]: step to the value of the keyword, or give up when the
    tokens are exhausted. *)
Notation "'NEXT_ARG' rest 'AS' v 'THEN' rest' 'IN' body" :=
  (match rest with
   | nil => incomplete_command
   | cons v rest' => body
   end) (at level 10, rest at level 0, v name, rest' name, body at level 200).

(** ** ip/ipfou.c *)

Definition usage_text : string :=
  "Usage: ip fou add port PORT { ipproto PROTO  | gue } [ -6 ]" ++ nl ++
  "       ip fou del port PORT [ -6 ]" ++ nl ++
  "       ip fou show" ++ nl ++
  nl ++
  "Where: PROTO { ipproto-name | 1..255 }" ++ nl ++
  "       PORT { 1..65535 }" ++ nl.

Definition usage : M Z :=
  fprintf_stderr usage_text ;;
  iprt_exit (-1).

(** [GENL_REQUEST] through [FOU_REQUEST]: a fresh request whose length
    covers the two headers. *)
Definition FOU_REQUEST (cmd flags : Z) : M unit :=
  fun s => (Val tt,
            mk_state (mk_nlmsghdr (NLMSG_HDRLEN + GENL_HDRLEN + 0)
                        (genl_family L) flags cmd FOU_GENL_VERSION [])
                     (stderr s) (sent s)).

(** The locals of [fou_parse_opt] that live across the loop.  [port] and
    [ipproto] are uninitialised in C and are read only after their flag
    is set; they start at 0 here. *)
Record fou_locals := mk_fou_locals {
  port : Z;
  port_set : Z;
  ipproto : Z;
  gue_set : bool;
  ipproto_set : Z;
  family : Z
}.

Definition fou_locals_init : fou_locals := mk_fou_locals 0 0 0 false 0 AF_INET.

(** The [while (argc > 0)] loop: [inl] are the locals when the tokens are
    used up, [inr] is a [return] taken inside the loop. *)
Fixpoint fou_parse_opt_loop (argv : list string) (l : fou_locals)
  : M (fou_locals + Z) :=
  match argv with
  | [] => ret (inl l)
  | a :: rest =>
      if negb (truthy (matches L a "port")) then
        NEXT_ARG rest AS v THEN rest' IN
        match get_be16 v 0 with
        | None => rc <- invarg "invalid port" v ;; ret (inr rc)
        | Some p =>
            if p =? 0 then rc <- invarg "invalid port" v ;; ret (inr rc)
            else fou_parse_opt_loop rest'
                   (mk_fou_locals p 1 (ipproto l) (gue_set l) (ipproto_set l) (family l))
        end
      else if negb (truthy (matches L a "ipproto")) then
        NEXT_ARG rest AS v THEN rest' IN
        match getprotobyname L v with
        | Some p_proto =>
            fou_parse_opt_loop rest'
              (mk_fou_locals (port l) (port_set l) (Z.land p_proto 255) (gue_set l) 1 (family l))
        | None =>
            match get_u8 L v 0 with
            | None => rc <- invarg "invalid ipproto" v ;; ret (inr rc)
            | Some p =>
                if p =? 0 then rc <- invarg "invalid ipproto" v ;; ret (inr rc)
                else fou_parse_opt_loop rest'
                       (mk_fou_locals (port l) (port_set l) p (gue_set l) 1 (family l))
            end
        end
      else if negb (truthy (matches L a "gue")) then
        fou_parse_opt_loop rest
          (mk_fou_locals (port l) (port_set l) (ipproto l) true (ipproto_set l) (family l))
      else if negb (truthy (matches L a "-6")) then
        fou_parse_opt_loop rest
          (mk_fou_locals (port l) (port_set l) (ipproto l) (gue_set l) (ipproto_set l) AF_INET6)
      else
        fprintf_stderr ("fou: unknown command " ++ dq ++ a ++ dq ++ "?" ++ nl) ;;
        usage ;;
        ret (inr (-1))
  end.

Definition fou_parse_opt (argv : list string) (adding : bool) : M Z :=
  r <- fou_parse_opt_loop argv fou_locals_init ;;
  match r with
  | inr rc => ret rc
  | inl l =>
      if negb (truthy (port_set l)) then
        fprintf_stderr ("fou: missing port" ++ nl) ;;
        ret (-1)
      else if negb (truthy (ipproto_set l)) && negb (gue_set l) && adding then
        fprintf_stderr ("fou: must set ipproto or gue" ++ nl) ;;
        ret (-1)
      else if truthy (ipproto_set l) && gue_set l then
        fprintf_stderr ("fou: cannot set ipproto and gue" ++ nl) ;;
        ret (-1)
      else
        let type := if gue_set l then FOU_ENCAP_GUE else FOU_ENCAP_DIRECT in
        addattr16 1024 FOU_ATTR_PORT (port l) ;;
        addattr8 1024 FOU_ATTR_TYPE type ;;
        addattr8 1024 FOU_ATTR_AF (family l) ;;
        (if truthy (ipproto_set l)
         then addattr8 1024 FOU_ATTR_IPPROTO (ipproto l) ;; ret tt
         else ret tt) ;;
        ret 0
  end.

Definition do_add (argv : list string) : M Z :=
  FOU_REQUEST FOU_CMD_ADD NLM_F_REQUEST ;;
  fou_parse_opt argv true ;;
  rc <- rtnl_talk ;;
  if rc <? 0 then ret (-2)
  else ret 0.

Definition do_del (argv : list string) : M Z :=
  FOU_REQUEST FOU_CMD_DEL NLM_F_REQUEST ;;
  fou_parse_opt argv false ;;
  rc <- rtnl_talk ;;
  if rc <? 0 then ret (-2)
  else ret 0.

(** ** ip/iplink_bridge_slave.c: the option parser *)

Definition print_explain_text : string :=
  "Usage: ... bridge_slave [ fdb_flush ]" ++ nl ++
  "                        [ state STATE ]" ++ nl ++
  "                        [ priority PRIO ]" ++ nl ++
  "                        [ cost COST ]" ++ nl ++
  "                        [ guard {on | off} ]" ++ nl ++
  "                        [ hairpin {on | off} ]" ++ nl ++
  "                        [ fastleave {on | off} ]" ++ nl ++
  "                        [ root_block {on | off} ]" ++ nl ++
  "                        [ learning {on | off} ]" ++ nl ++
  "                        [ flood {on | off} ]" ++ nl ++
  "                        [ proxy_arp {on | off} ]" ++ nl ++
  "                        [ proxy_arp_wifi {on | off} ]" ++ nl ++
  "                        [ mcast_router MULTICAST_ROUTER ]" ++ nl ++
  "                        [ mcast_fast_leave {on | off} ]" ++ nl ++
  "                        [ mcast_flood {on | off} ]" ++ nl ++
  "                        [ group_fwd_mask MASK ]" ++ nl ++
  "                        [ neigh_suppress {on | off} ]" ++ nl ++
  "                        [ vlan_tunnel {on | off} ]" ++ nl.

Definition explain : M unit := fprintf_stderr print_explain_text.

Definition on_off_msg : string :=
  "should be " ++ dq ++ "on" ++ dq ++ " or " ++ dq ++ "off" ++ dq.

Definition bridge_slave_parse_on_off (arg_name arg_val : string) (type : Z)
  : M Z :=
  if String.eqb arg_val "on" then
    addattr8 1024 type 1 ;;
    ret 0
  else if String.eqb arg_val "off" then
    addattr8 1024 type 0 ;;
    ret 0
  else
    invarg on_off_msg arg_name.

Fixpoint bridge_slave_parse_opt (argv : list string) : M Z :=
  match argv with
  | [] => ret 0
  | a :: rest =>
      if matches L a "fdb_flush" =? 0 then
        addattr 1024 IFLA_BRPORT_FLUSH ;;
        bridge_slave_parse_opt rest
      else if matches L a "state" =? 0 then
        NEXT_ARG rest AS v THEN rest' IN
        match get_u8 L v 0 with
        | None => invarg "state is invalid" v
        | Some state =>
            addattr8 1024 IFLA_BRPORT_STATE state ;;
            bridge_slave_parse_opt rest'
        end
      else if matches L a "priority" =? 0 then
        NEXT_ARG rest AS v THEN rest' IN
        match get_u16 L v 0 with
        | None => invarg "priority is invalid" v
        | Some priority =>
            addattr16 1024 IFLA_BRPORT_PRIORITY priority ;;
            bridge_slave_parse_opt rest'
        end
      else if matches L a "cost" =? 0 then
        NEXT_ARG rest AS v THEN rest' IN
        match get_u32 L v 0 with
        | None => invarg "cost is invalid" v
        | Some cost =>
            addattr32 1024 IFLA_BRPORT_COST cost ;;
            bridge_slave_parse_opt rest'
        end
      else if matches L a "hairpin" =? 0 then
        NEXT_ARG rest AS v THEN rest' IN
        rc <- bridge_slave_parse_on_off "hairpin" v IFLA_BRPORT_MODE ;;
        if truthy rc then ret (-1) else bridge_slave_parse_opt rest'
      else if matches L a "guard" =? 0 then
        NEXT_ARG rest AS v THEN rest' IN
        rc <- bridge_slave_parse_on_off "guard" v IFLA_BRPORT_GUARD ;;
        if truthy rc then ret (-1) else bridge_slave_parse_opt rest'
      else if matches L a "root_block" =? 0 then
        NEXT_ARG rest AS v THEN rest' IN
        rc <- bridge_slave_parse_on_off "root_block" v IFLA_BRPORT_PROTECT ;;
        if truthy rc then ret (-1) else bridge_slave_parse_opt rest'
      else if matches L a "fastleave" =? 0 then
        NEXT_ARG rest AS v THEN rest' IN
        rc <- bridge_slave_parse_on_off "fastleave" v IFLA_BRPORT_FAST_LEAVE ;;
        if truthy rc then ret (-1) else bridge_slave_parse_opt rest'
      else if matches L a "learning" =? 0 then
        NEXT_ARG rest AS v THEN rest' IN
        rc <- bridge_slave_parse_on_off "learning" v IFLA_BRPORT_LEARNING ;;
        if truthy rc then ret (-1) else bridge_slave_parse_opt rest'
      else if matches L a "flood" =? 0 then
        NEXT_ARG rest AS v THEN rest' IN
        rc <- bridge_slave_parse_on_off "flood" v IFLA_BRPORT_UNICAST_FLOOD ;;
        if truthy rc then ret (-1) else bridge_slave_parse_opt rest'
      else if matches L a "mcast_flood" =? 0 then
        NEXT_ARG rest AS v THEN rest' IN
        rc <- bridge_slave_parse_on_off "mcast_flood" v IFLA_BRPORT_MCAST_FLOOD ;;
        if truthy rc then ret (-1) else bridge_slave_parse_opt rest'
      else if matches L a "proxy_arp" =? 0 then
        NEXT_ARG rest AS v THEN rest' IN
        rc <- bridge_slave_parse_on_off "proxy_arp" v IFLA_BRPORT_PROXYARP ;;
        if truthy rc then ret (-1) else bridge_slave_parse_opt rest'
      else if matches L a "proxy_arp_wifi" =? 0 then
        NEXT_ARG rest AS v THEN rest' IN
        rc <- bridge_slave_parse_on_off "proxy_arp_wifi" v IFLA_BRPORT_PROXYARP_WIFI ;;
        if truthy rc then ret (-1) else bridge_slave_parse_opt rest'
      else if matches L a "mcast_router" =? 0 then
        NEXT_ARG rest AS v THEN rest' IN
        match get_u8 L v 0 with
        | None => invarg "invalid mcast_router" v
        | Some mcast_router =>
            addattr8 1024 IFLA_BRPORT_MULTICAST_ROUTER mcast_router ;;
            bridge_slave_parse_opt rest'
        end
      else if matches L a "mcast_fast_leave" =? 0 then
        NEXT_ARG rest AS v THEN rest' IN
        rc <- bridge_slave_parse_on_off "mcast_fast_leave" v IFLA_BRPORT_FAST_LEAVE ;;
        if truthy rc then ret (-1) else bridge_slave_parse_opt rest'
      else if matches L a "neigh_suppress" =? 0 then
        NEXT_ARG rest AS v THEN rest' IN
        rc <- bridge_slave_parse_on_off "neigh_suppress" v IFLA_BRPORT_NEIGH_SUPPRESS ;;
        if truthy rc then ret (-1) else bridge_slave_parse_opt rest'
      else if matches L a "group_fwd_mask" =? 0 then
        NEXT_ARG rest AS v THEN rest' IN
        match get_u16 L v 0 with
        | None => invarg "invalid group_fwd_mask" v
        | Some mask =>
            addattr16 1024 IFLA_BRPORT_GROUP_FWD_MASK mask ;;
            bridge_slave_parse_opt rest'
        end
      else if matches L a "vlan_tunnel" =? 0 then
        NEXT_ARG rest AS v THEN rest' IN
        rc <- bridge_slave_parse_on_off "vlan_tunnel" v IFLA_BRPORT_VLAN_TUNNEL ;;
        if truthy rc then ret (-1) else bridge_slave_parse_opt rest'
      else if matches L a "help" =? 0 then
        explain ;;
        ret (-1)
      else
        fprintf_stderr ("bridge_slave: unknown option " ++ dq ++ a ++ dq ++ "?" ++ nl) ;;
        explain ;;
        ret (-1)
  end.

End Program.

(** ** Output: the calls made on the json_print sink *)

Inductive output_type := PRINT_FP | PRINT_JSON | PRINT_ANY.

(** One call on the sink; a NULL key, format or value is [None]. *)
Inductive print_call :=
| open_json_object (key : option string)
| close_json_object
| print_string (t : output_type) (key fmt value : option string)
| print_uint (t : output_type) (key fmt : option string) (value : Z)
| print_int (t : output_type) (key fmt : option string) (value : Z)
| print_null (t : output_type) (key fmt value : option string).

(** ** ip/iplink_bridge_slave.c: the display helpers *)

Definition port_states (i : Z) : option string :=
  if i =? BR_STATE_DISABLED then Some "disabled"
  else if i =? BR_STATE_LISTENING then Some "listening"
  else if i =? BR_STATE_LEARNING then Some "learning"
  else if i =? BR_STATE_FORWARDING then Some "forwarding"
  else if i =? BR_STATE_BLOCKING then Some "blocking"
  else None.

Definition fwd_mask_tbl (i : Z) : option string :=
  if i =? 0 then Some "stp"
  else if i =? 2 then Some "lacp"
  else if i =? 14 then Some "lldp"
  else None.

Definition print_portstate (state : Z) : list print_call :=
  if state <=? BR_STATE_BLOCKING then
    [print_string PRINT_ANY (Some "state") (Some "state %s ") (port_states state)]
  else
    [print_int PRINT_ANY (Some "state_index") (Some "state (%d) ") state].

(** The [%x] conversion of an [unsigned int]. *)
Definition hex_digit (d : Z) : ascii :=
  if d <? 10 then ascii_of_nat (Z.to_nat (48 + d))
  else ascii_of_nat (Z.to_nat (87 + d)).

Fixpoint hex_from (fuel : nat) (v : Z) (acc : string) : string :=
  match fuel with
  | O => acc
  | S fuel' =>
      let acc' := String (hex_digit (Z.land v 15)) acc in
      if Z.shiftr v 4 =? 0 then acc' else hex_from fuel' (Z.shiftr v 4) acc'
  end.

Definition fmt_x (v : Z) : string := hex_from 8 (Z.land v 4294967295) "".

Definition strlen (s : string) : Z := Z.of_nat (String.length s).

(** [snprintf(dst + off, size, "%s", text)] on the C string held in [dst]:
    at most [size - 1] characters are stored after the first [off] ones.
    [size] is [dst_size - len] computed in [size_t]; when it would be
    negative the call writes past the buffer and has no result. *)
Definition snprintf (dst : string) (off size : Z) (text : string)
  : option string :=
  if size <? 0 then None
  else if size =? 0 then Some dst
  else if off <=? strlen dst then
    Some (substring 0 (Z.to_nat off) dst ++ substring 0 (Z.to_nat (size - 1)) text)
  else Some dst.

(** The [for] loop of [_bitmask2str]; [fuel] bounds the iterations, and a
    16-bit mask is zero after at most sixteen shifts. *)
Fixpoint _bitmask2str_loop (fuel : nat) (bitmask i len : Z) (dst : string)
    (dst_size : Z) (tbl : Z -> option string) : option (Z * string) :=
  if bitmask =? 0 then Some (len, dst)
  else
    match fuel with
    | O => None
    | S fuel' =>
        if negb (Z.land bitmask 1 =? 0) then
          let text :=
            match tbl i with
            | Some name => name ++ ","
            | None => "0x" ++ fmt_x (Z.shiftl 1 i) ++ ","
            end in
          match snprintf dst len (dst_size - len) text with
          | None => None
          | Some dst' =>
              _bitmask2str_loop fuel' (Z.shiftr bitmask 1) (i + 1)
                (len + strlen text) dst' dst_size tbl
          end
        else
          _bitmask2str_loop fuel' (Z.shiftr bitmask 1) (i + 1) len dst dst_size tbl
    end.

(** [_bitmask2str]: the C string left in [dst], or [None] when a store
    falls outside [dst]. *)
Definition _bitmask2str (bitmask : Z) (dst_size : Z) (tbl : Z -> option string)
  : option string :=
  match _bitmask2str_loop 16 (Z.land bitmask 65535) 0 0 "" dst_size tbl with
  | None => None
  | Some (len, dst) =>
      if len =? 0 then snprintf dst 0 dst_size "0x0"
      else if len - 1 <? dst_size then
        Some (substring 0 (Z.to_nat (len - 1)) dst)
      else None
  end.

(** ** ip/ipfou.c: the display path *)

Section Display.

Variable L : library.

Definition print_fou_mapping (n : nlmsghdr) : Z * list print_call :=
  if negb (nlmsg_type n =? genl_family L) then (0, [])
  else
    let len := nlmsg_len n - NLMSG_LENGTH GENL_HDRLEN in
    if len <? 0 then (-1, [])
    else
      let tb := parse_rtattr FOU_ATTR_MAX (attrs n) len in
      (0,
       ([open_json_object None] ++
        match tb FOU_ATTR_PORT with
        | Some a =>
            [print_uint PRINT_ANY (Some "port") (Some "port %u")
               (ntohs (little_endian L) (rta_getattr_u16 (little_endian L) a))]
        | None => []
        end ++
        (if match tb FOU_ATTR_TYPE with
            | Some a => rta_getattr_u8 a =? FOU_ENCAP_GUE
            | None => false
            end
         then [print_null PRINT_ANY (Some "gue") (Some " gue") None]
         else
           match tb FOU_ATTR_IPPROTO with
           | Some a =>
               [print_uint PRINT_ANY (Some "ipproto") (Some " ipproto %u")
                  (rta_getattr_u8 a)]
           | None => []
           end) ++
        match tb FOU_ATTR_AF with
        | Some a =>
            let family := rta_getattr_u8 a in
            [print_string PRINT_JSON (Some "family") None
               (Some (family_name L family))] ++
            (if family =? AF_INET6
             then [print_string PRINT_FP None (Some " -6") None]
             else [])
        | None => []
        end ++
        [print_string PRINT_FP None (Some nl) None;
         close_json_object])%list).

End Display.

(** ** A host to run the program on

    A little-endian Linux host: keywords may be abbreviated to a prefix,
    numbers are read in decimal, and the kernel accepts every request. *)

Definition matches_prefix (cmd pattern : string) : Z :=
  if String.prefix cmd pattern then 0 else -1.

Definition digit_value (c : ascii) : option Z :=
  let k := Z.of_nat (nat_of_ascii c) in
  if (48 <=? k) && (k <=? 57) then Some (k - 48) else None.

Fixpoint parse_digits (s : string) (acc : Z) : option Z :=
  match s with
  | EmptyString => Some acc
  | String c s' =>
      match digit_value c with
      | Some d => parse_digits s' (10 * acc + d)
      | None => None
      end
  end.

(** A decimal numeral: digits only, no leading zero. *)
Definition decimal (s : string) : option Z :=
  match s with
  | EmptyString => None
  | String c EmptyString => digit_value c
  | String c _ => if Ascii.eqb c "0"%char then None else parse_digits s 0
  end.

Definition get_unsigned (bound : Z) (arg : string) (base : Z) : option Z :=
  match decimal arg with
  | Some v => if v <=? bound then Some v else None
  | None => None
  end.

Definition protocols (name : string) : option Z :=
  if String.eqb name "ip" then Some 0
  else if String.eqb name "icmp" then Some 1
  else if String.eqb name "ipencap" then Some 4
  else if String.eqb name "tcp" then Some 6
  else if String.eqb name "udp" then Some 17
  else if String.eqb name "gre" then Some 47
  else None.

Definition linux_host : library :=
  mk_library matches_prefix
    (get_unsigned 255) (get_unsigned 65535) (get_unsigned 4294967295)
    protocols
    (fun _ => 0)
    27
    true
    (fun f => if f =? AF_INET then "inet"
              else if f =? AF_INET6 then "inet6" else "???").

(** The state a command starts from: nothing printed, nothing sent, and
    [n] pointing at a bare 32-byte link request. *)
Definition start : state :=
  mk_state (mk_nlmsghdr 32 16 1 0 0 []) [] [].

(** ** Specification-side vocabulary *)

(** A result that reports failure: a non-zero return value, or leaving
    through the invalid-argument path or a non-zero exit. *)
Definition failed (r : res Z) : Prop :=
  match r with
  | Val rc => rc <> 0
  | Stopped (IprtExit code) => code <> 0
  | Stopped _ => True
  end.

(** The value token after "ipproto" is accepted. *)
Definition ipproto_value_ok (L : library) (v : string) : bool :=
  match getprotobyname L v with
  | Some _ => true
  | None =>
      match get_u8 L v 0 with
      | Some p => negb (p =? 0)
      | None => false
      end
  end.

(** The scan of the FOU tokens reaches a token that selects the "port"
    branch. *)
Fixpoint port_keyword_consumed (L : library) (argv : list string) : bool :=
  match argv with
  | [] => false
  | a :: rest =>
      if matches L a "port" =? 0 then true
      else if matches L a "ipproto" =? 0 then
        match rest with
        | [] => false
        | v :: rest' => ipproto_value_ok L v && port_keyword_consumed L rest'
        end
      else if (matches L a "gue" =? 0) || (matches L a "-6" =? 0) then
        port_keyword_consumed L rest
      else false
  end.

(** The keywords of the bridge-port grammar in the order the parser tries
    them, and the keyword a token selects: the first one it matches. *)
Definition bridge_slave_keywords : list string :=
  ["fdb_flush"; "state"; "priority"; "cost"; "hairpin"; "guard";
   "root_block"; "fastleave"; "learning"; "flood"; "mcast_flood";
   "proxy_arp"; "proxy_arp_wifi"; "mcast_router"; "mcast_fast_leave";
   "neigh_suppress"; "group_fwd_mask"; "vlan_tunnel"; "help"].

Fixpoint first_match (L : library) (tok : string) (kws : list string)
  : option string :=
  match kws with
  | [] => None
  | k :: kws' => if matches L tok k =? 0 then Some k else first_match L tok kws'
  end.

Definition selects (L : library) (tok kw : string) : Prop :=
  first_match L tok bridge_slave_keywords = Some kw.

(** The state with the request replaced. *)
Definition set_nlmsg (s : state) (n : nlmsghdr) : state :=
  mk_state n (stderr s) (sent s).

(** The state after one more line on stderr. *)
Definition add_stderr (s : state) (text : string) : state :=
  mk_state (nlmsg s) (stderr s ++ [text])%list (sent s).

(** The request [do_add] and [do_del] start from. *)
Definition fou_request (L : library) (cmd : Z) : nlmsghdr :=
  mk_nlmsghdr 20 (genl_family L) NLM_F_REQUEST cmd FOU_GENL_VERSION [].

(** The names of the five port states, by value. *)
Definition port_state_names : list string :=
  ["disabled"; "listening"; "learning"; "forwarding"; "blocking"].

(** The forwarding mask as the specification words it: the text of a
    bit is its name when it has one ("stp" for bit 0, "lacp" for bit 2,
    "lldp" for bit 14) and the hexadecimal form of [1 << i] otherwise,
    written out here for the sixteen bits; the texts of the set bits,
    lowest first, are joined by commas, and the empty mask is "0x0". *)
Definition fwd_mask_bit_texts : list string :=
  ["stp"; "0x2"; "lacp"; "0x8"; "0x10"; "0x20"; "0x40"; "0x80";
   "0x100"; "0x200"; "0x400"; "0x800"; "0x1000"; "0x2000"; "lldp"; "0x8000"].

Definition fwd_mask_bit_text (i : nat) : string :=
  nth i fwd_mask_bit_texts "".

Definition set_bits (mask : Z) : list nat :=
  filter (fun i => Z.testbit mask (Z.of_nat i)) (seq 0 16).

Definition render_fwd_mask (mask : Z) : string :=
  match set_bits mask with
  | [] => "0x0"
  | bits => String.concat "," (map fwd_mask_bit_text bits)
  end.

(** What one set bit adds to the buffer, with and without its comma. *)
Definition bit_text (tbl : Z -> option string) (i : Z) : string :=
  match tbl i with
  | Some name => name ++ ","
  | None => "0x" ++ fmt_x (Z.shiftl 1 i) ++ ","
  end.

Definition text_of (tbl : Z -> option string) (i : Z) : string :=
  match tbl i with
  | Some name => name
  | None => "0x" ++ fmt_x (Z.shiftl 1 i)
  end.

(** Everything the loop of [_bitmask2str] writes when nothing is cut. *)
Fixpoint loop_text (fuel : nat) (bitmask i : Z) (tbl : Z -> option string)
  : string :=
  if bitmask =? 0 then ""
  else
    match fuel with
    | O => ""
    | S fuel' =>
        (if negb (Z.land bitmask 1 =? 0) then bit_text tbl i else "") ++
        loop_text fuel' (Z.shiftr bitmask 1) (i + 1) tbl
    end.

(** The texts, each followed by a comma. *)
Fixpoint terminated (texts : list string) : string :=
  match texts with
  | [] => ""
  | t :: texts' => t ++ "," ++ terminated texts'
  end.

(** The most the loop can write for the bits [i], ..., [i + fuel - 1]. *)
Fixpoint text_budget (tbl : Z -> option string) (fuel : nat) (i : Z) : Z :=
  match fuel with
  | O => 0
  | S fuel' => strlen (bit_text tbl i) + text_budget tbl fuel' (i + 1)
  end.

(** The key a call on the sink carries. *)
Definition call_key (c : print_call) : option string :=
  match c with
  | open_json_object key => key
  | close_json_object => None
  | print_string _ key _ _ => key
  | print_uint _ key _ _ => key
  | print_int _ key _ _ => key
  | print_null _ key _ _ => key
  end.

Definition has_key (key : string) (c : print_call) : bool :=
  match call_key c with
  | Some k => String.eqb k key
  | None => false
  end.

(** Some call in [out] carries the key. *)
Definition printed (key : string) (out : list print_call) : Prop :=
  exists c, In c out /\ call_key c = Some key.

(** The message passes the two checks [print_fou_mapping] makes before
    it decodes anything. *)
Definition displayed (L : library) (n : nlmsghdr) : bool :=
  (nlmsg_type n =? genl_family L) &&
  (0 <=? nlmsg_len n - NLMSG_LENGTH GENL_HDRLEN).

(** The condition of the "gue" branch: the type attribute is present and
    holds [FOU_ENCAP_GUE]. *)
Definition is_gue (tb : rtattr_table) : bool :=
  match tb FOU_ATTR_TYPE with
  | Some a => rta_getattr_u8 a =? FOU_ENCAP_GUE
  | None => false
  end.

(** The locals after "port 5555 ipproto 47 gue" on the sample host. *)
Definition both_set_locals : fou_locals :=
  mk_fou_locals 45845 1 47 true 1 AF_INET.

(** What every run of the FOU option scan keeps: the request and the
    wire are as before, and a scan that runs to the end has printed
    nothing and hands back its locals. *)
Definition loop_frame (s : state) (r : res (fou_locals + Z)) (s' : state)
  : Prop :=
  nlmsg s' = nlmsg s /\ sent s' = sent s /\
  (forall x, r = Val x -> s' = s /\ exists l', x = inl l').

(** ** More of ip/iplink_bridge_slave.c: the display of a bridge port *)

Definition IFLA_BRPORT_ROOT_ID : Z := 13.
Definition IFLA_BRPORT_BRIDGE_ID : Z := 14.
Definition IFLA_BRPORT_DESIGNATED_PORT : Z := 15.
Definition IFLA_BRPORT_DESIGNATED_COST : Z := 16.
Definition IFLA_BRPORT_ID : Z := 17.
Definition IFLA_BRPORT_NO : Z := 18.
Definition IFLA_BRPORT_TOPOLOGY_CHANGE_ACK : Z := 19.
Definition IFLA_BRPORT_CONFIG_PENDING : Z := 20.
Definition IFLA_BRPORT_MESSAGE_AGE_TIMER : Z := 21.
Definition IFLA_BRPORT_FORWARD_DELAY_TIMER : Z := 22.
Definition IFLA_BRPORT_HOLD_TIMER : Z := 23.

(** The 32-bit and 64-bit getters read the payload in host byte order,
    like [rta_getattr_u16]. *)
Definition le_value (bytes : list Z) : Z :=
  fold_right (fun b acc => Z.lor b (Z.shiftl acc 8)) 0 bytes.

Definition host_value (little_endian : bool) (bytes : list Z) : Z :=
  if little_endian then le_value bytes else le_value (rev bytes).

Definition payload (len : nat) (rta : rtattr) : list Z :=
  map (fun i => nth i (rta_data rta) 0) (seq 0 len).

Definition rta_getattr_u32 (little_endian : bool) (rta : rtattr) : Z :=
  host_value little_endian (payload 4 rta).

Definition rta_getattr_u64 (little_endian : bool) (rta : rtattr) : Z :=
  host_value little_endian (payload 8 rta).

(** An argument of a [printf]-style call. *)
Inductive fmt_arg :=
| arg_s (s : string)
| arg_i (z : Z).

(** What the display of a bridge port does: calls on the json_print
    sink, calls that [print_call] does not list, writes to the [FILE]
    it was given, and calls on the JSON writer. *)
Inductive display_call :=
| sink (c : print_call)
| print_bool (t : output_type) (key fmt : option string) (value : Z)
| print_0xhex (t : output_type) (key fmt : option string) (value : Z)
| fprintf (fmt : string) (args : list fmt_arg)
| jsonw_name (name : string)
| jsonw_printf (fmt : string) (args : list fmt_arg).

(** What the display takes from outside the file: the output mode, the
    tick conversion [__jiffies_to_tv] (seconds and microseconds) and
    [br_dump_bridge_id] on the bytes of the attribute. *)
Record display_env := mk_display_env {
  is_json_context : bool;
  jiffies_to_tv : Z -> Z * Z;
  br_dump_bridge_id : list Z -> string
}.

(** The conversion [(int)] of a [long]. *)
Definition int_of_long (z : Z) : Z :=
  (z + 2147483648) mod 4294967296 - 2147483648.

(** A [__u32] passed for an [int] parameter, as to [print_int]. *)
Definition int_of_u32 (z : Z) : Z :=
  if z <? 2147483648 then z else z - 4294967296.

Definition print_explain : list display_call :=
  [fprintf print_explain_text []].

Definition bridge_slave_print_help : list display_call := print_explain.

Section BridgeDisplay.

Variable L : library.
Variable E : display_env.

Definition _print_onoff (json_flag flag : string) (val : Z)
  : list display_call :=
  if is_json_context E then
    [print_bool PRINT_JSON (Some flag) None val]
  else
    [fprintf "%s %s " [arg_s flag; arg_s (if truthy val then "on" else "off")]].

Definition _print_timer (attr : string) (timer : rtattr) : list display_call :=
  let tv := jiffies_to_tv E (rta_getattr_u64 (little_endian L) timer) in
  if is_json_context E then
    [jsonw_name attr;
     jsonw_printf "%i.%.2i"
       [arg_i (int_of_long (fst tv));
        arg_i (Z.quot (int_of_long (snd tv)) 10000)]]
  else
    [fprintf "%s %4i.%.2i "
       [arg_s attr;
        arg_i (int_of_long (fst tv));
        arg_i (Z.quot (int_of_long (snd tv)) 10000)]].

(** [if (tb[i]) ...]: the calls of a field that is present. *)
Definition present (slot : option rtattr) (calls : rtattr -> list display_call)
  : list display_call :=
  match slot with
  | Some rta => calls rta
  | None => []
  end.

(** The fields [bridge_slave_print_opt] prints before the forwarding
    mask, in the order of the source. *)
Definition print_opt_head (tb : rtattr_table) : list display_call :=
  concat
  [present (tb IFLA_BRPORT_STATE) (fun a =>
     map sink (print_portstate (rta_getattr_u8 a)));
   present (tb IFLA_BRPORT_PRIORITY) (fun a =>
     [sink (print_int PRINT_ANY (Some "priority") (Some "priority %d ")
              (rta_getattr_u16 (little_endian L) a))]);
   present (tb IFLA_BRPORT_COST) (fun a =>
     [sink (print_int PRINT_ANY (Some "cost") (Some "cost %d ")
              (int_of_u32 (rta_getattr_u32 (little_endian L) a)))]);
   present (tb IFLA_BRPORT_MODE) (fun a =>
     _print_onoff "mode" "hairpin" (rta_getattr_u8 a));
   present (tb IFLA_BRPORT_GUARD) (fun a =>
     _print_onoff "guard" "guard" (rta_getattr_u8 a));
   present (tb IFLA_BRPORT_PROTECT) (fun a =>
     _print_onoff "protect" "root_block" (rta_getattr_u8 a));
   present (tb IFLA_BRPORT_FAST_LEAVE) (fun a =>
     _print_onoff "fast_leave" "fastleave" (rta_getattr_u8 a));
   present (tb IFLA_BRPORT_LEARNING) (fun a =>
     _print_onoff "learning" "learning" (rta_getattr_u8 a));
   present (tb IFLA_BRPORT_UNICAST_FLOOD) (fun a =>
     _print_onoff "unicast_flood" "flood" (rta_getattr_u8 a));
   present (tb IFLA_BRPORT_ID) (fun a =>
     [print_0xhex PRINT_ANY (Some "id") (Some "port_id 0x%x ")
        (rta_getattr_u16 (little_endian L) a)]);
   present (tb IFLA_BRPORT_NO) (fun a =>
     [print_0xhex PRINT_ANY (Some "no") (Some "port_no 0x%x ")
        (rta_getattr_u16 (little_endian L) a)]);
   present (tb IFLA_BRPORT_DESIGNATED_PORT) (fun a =>
     [sink (print_uint PRINT_ANY (Some "designated_port")
              (Some "designated_port %u ")
              (rta_getattr_u16 (little_endian L) a))]);
   present (tb IFLA_BRPORT_DESIGNATED_COST) (fun a =>
     [sink (print_uint PRINT_ANY (Some "designated_cost")
              (Some "designated_cost %u ")
              (rta_getattr_u16 (little_endian L) a))]);
   present (tb IFLA_BRPORT_BRIDGE_ID) (fun a =>
     [sink (print_string PRINT_ANY (Some "bridge_id")
              (Some "designated_bridge %s ")
              (Some (br_dump_bridge_id E (rta_data a))))]);
   present (tb IFLA_BRPORT_ROOT_ID) (fun a =>
     [sink (print_string PRINT_ANY (Some "root_id")
              (Some "designated_root %s ")
              (Some (br_dump_bridge_id E (rta_data a))))]);
   present (tb IFLA_BRPORT_HOLD_TIMER) (fun a =>
     _print_timer "hold_timer" a);
   present (tb IFLA_BRPORT_MESSAGE_AGE_TIMER) (fun a =>
     _print_timer "message_age_timer" a);
   present (tb IFLA_BRPORT_FORWARD_DELAY_TIMER) (fun a =>
     _print_timer "forward_delay_timer" a);
   present (tb IFLA_BRPORT_TOPOLOGY_CHANGE_ACK) (fun a =>
     [sink (print_uint PRINT_ANY (Some "topology_change_ack")
              (Some "topology_change_ack %u ") (rta_getattr_u8 a))]);
   present (tb IFLA_BRPORT_CONFIG_PENDING) (fun a =>
     [sink (print_uint PRINT_ANY (Some "config_pending")
              (Some "config_pending %u ") (rta_getattr_u8 a))]);
   present (tb IFLA_BRPORT_PROXYARP) (fun a =>
     _print_onoff "proxyarp" "proxy_arp" (rta_getattr_u8 a));
   present (tb IFLA_BRPORT_PROXYARP_WIFI) (fun a =>
     _print_onoff "proxyarp_wifi" "proxy_arp_wifi" (rta_getattr_u8 a));
   present (tb IFLA_BRPORT_MULTICAST_ROUTER) (fun a =>
     [sink (print_uint PRINT_ANY (Some "multicast_router")
              (Some "mcast_router %u ") (rta_getattr_u8 a))]);
   present (tb IFLA_BRPORT_FAST_LEAVE) (fun a =>
     [sink (print_string PRINT_FP None (Some "mcast_fast_leave %s ")
              (Some (if truthy (rta_getattr_u8 a) then "on" else "off")))]);
   present (tb IFLA_BRPORT_MCAST_FLOOD) (fun a =>
     _print_onoff "mcast_flood" "mcast_flood" (rta_getattr_u8 a));
   present (tb IFLA_BRPORT_NEIGH_SUPPRESS) (fun a =>
     _print_onoff "neigh_suppress" "neigh_suppress" (rta_getattr_u8 a))].

Definition print_opt_tail (tb : rtattr_table) : list display_call :=
  present (tb IFLA_BRPORT_VLAN_TUNNEL) (fun a =>
    _print_onoff "vlan_tunnel" "vlan_tunnel" (rta_getattr_u8 a)).

(** [bridge_slave_print_opt]: the calls made, or [None] when
    [_bitmask2str] stores outside [convbuf].  A NULL [tb] is [None] as
    the argument. *)
Definition bridge_slave_print_opt (tb : option rtattr_table)
  : option (list display_call) :=
  match tb with
  | None => Some []
  | Some tb =>
      match tb IFLA_BRPORT_GROUP_FWD_MASK with
      | None => Some (print_opt_head tb ++ print_opt_tail tb)%list
      | Some a =>
          let fwd_mask := rta_getattr_u16 (little_endian L) a in
          match _bitmask2str fwd_mask 256 fwd_mask_tbl with
          | None => None
          | Some convbuf =>
              Some (print_opt_head tb ++
                    [print_0xhex PRINT_ANY (Some "group_fwd_mask")
                       (Some "group_fwd_mask 0x%x ") fwd_mask;
                     sink (print_string PRINT_ANY (Some "group_fwd_mask_str")
                             (Some "group_fwd_mask_str %s ") (Some convbuf))] ++
                    print_opt_tail tb)%list
          end
      end
  end.

End BridgeDisplay.

(** ** What a successful FOU parse builds *)

(** The locals pass the three checks that follow the scan. *)
Definition fou_locals_ok (adding : bool) (l : fou_locals) : Prop :=
  port_set l <> 0 /\
  (adding = true -> ipproto_set l <> 0 \/ gue_set l = true) /\
  (ipproto_set l = 0 \/ gue_set l = false).

(** The attributes appended for the locals, in the order of the calls. *)
Definition fou_attrs (L : library) (l : fou_locals) : list rtattr :=
  [mk_rtattr FOU_ATTR_PORT (u16_bytes (little_endian L) (port l));
   mk_rtattr FOU_ATTR_TYPE
     [if gue_set l then FOU_ENCAP_GUE else FOU_ENCAP_DIRECT];
   mk_rtattr FOU_ATTR_AF [Z.land (family l) 255]] ++
  (if truthy (ipproto_set l)
   then [mk_rtattr FOU_ATTR_IPPROTO [Z.land (ipproto l) 255]]
   else []).

(** The request with these attributes: eight more bytes for each. *)
Definition fou_built (L : library) (cmd : Z) (l : fou_locals) : nlmsghdr :=
  mk_nlmsghdr (20 + 8 * Z.of_nat (length (fou_attrs L l)))
    (genl_family L) NLM_F_REQUEST cmd FOU_GENL_VERSION (fou_attrs L l).

(** ** What appending keeps *)

(** The bytes a list of attributes takes in a message. *)
Definition attrs_size (rtas : list rtattr) : Z :=
  fold_right (fun a acc => RTA_ALIGN (rta_len a) + acc) 0 rtas.

(** [s'] is [s] after some appends with capacity 1024: nothing was sent,
    the envelope is the same, attributes were only added at the end, the
    length field accounts for them, and it did not pass 1024. *)
Definition extends (s s' : state) : Prop :=
  sent s' = sent s /\
  nlmsg_type (nlmsg s') = nlmsg_type (nlmsg s) /\
  nlmsg_flags (nlmsg s') = nlmsg_flags (nlmsg s) /\
  genl_cmd (nlmsg s') = genl_cmd (nlmsg s) /\
  genl_version (nlmsg s') = genl_version (nlmsg s) /\
  exists extra,
    attrs (nlmsg s') = (attrs (nlmsg s) ++ extra)%list /\
    (nlmsg_len (nlmsg s) mod 4 = 0 ->
     nlmsg_len (nlmsg s') = nlmsg_len (nlmsg s) + attrs_size extra) /\
    (nlmsg_len (nlmsg s) <= 1024 -> nlmsg_len (nlmsg s') <= 1024).

(** Every run of [m] ends in a state that extends the one it started
    from. *)
Definition keeps {A} (m : M A) : Prop :=
  forall s, extends s (snd (m s)).

(** ** Vocabulary for the display of a bridge port *)

(** A mask rendered with any table of names: as [render_fwd_mask], with
    the names of [tbl]. *)
Definition render_mask (tbl : Z -> option string) (mask : Z) : string :=
  match set_bits mask with
  | [] => "0x0"
  | bits => String.concat "," (map (fun i => text_of tbl (Z.of_nat i)) bits)
  end.

(** The key a display call carries into the JSON output. *)
Definition display_key (c : display_call) : option string :=
  match c with
  | sink c' => call_key c'
  | print_bool _ key _ _ => key
  | print_0xhex _ key _ _ => key
  | fprintf _ _ => None
  | jsonw_name name => Some name
  | jsonw_printf _ _ => None
  end.

(** The keys [bridge_slave_print_opt] uses. *)
Definition print_opt_keys : list string :=
  ["state"; "state_index"; "priority"; "cost"; "hairpin"; "guard";
   "root_block"; "fastleave"; "learning"; "flood"; "id"; "no";
   "designated_port"; "designated_cost"; "bridge_id"; "root_id";
   "hold_timer"; "message_age_timer"; "forward_delay_timer";
   "topology_change_ack"; "config_pending"; "proxy_arp"; "proxy_arp_wifi";
   "multicast_router"; "mcast_flood"; "neigh_suppress"; "group_fwd_mask";
   "group_fwd_mask_str"; "vlan_tunnel"].

(** The on/off attributes with the name each is displayed under. *)
Definition onoff_fields : list (Z * string) :=
  [(IFLA_BRPORT_MODE, "hairpin"); (IFLA_BRPORT_GUARD, "guard");
   (IFLA_BRPORT_PROTECT, "root_block"); (IFLA_BRPORT_FAST_LEAVE, "fastleave");
   (IFLA_BRPORT_LEARNING, "learning"); (IFLA_BRPORT_UNICAST_FLOOD, "flood");
   (IFLA_BRPORT_PROXYARP, "proxy_arp");
   (IFLA_BRPORT_PROXYARP_WIFI, "proxy_arp_wifi");
   (IFLA_BRPORT_MCAST_FLOOD, "mcast_flood");
   (IFLA_BRPORT_NEIGH_SUPPRESS, "neigh_suppress");
   (IFLA_BRPORT_VLAN_TUNNEL, "vlan_tunnel")].

Definition on_off (val : Z) : string := if truthy val then "on" else "off".

(** The display of the table makes the call [c]. *)
Definition shown (L : library) (E : display_env) (tb : rtattr_table)
    (c : display_call) : Prop :=
  exists out, bridge_slave_print_opt L E (Some tb) = Some out /\ In c out.

(** The keywords of the bridge-port grammar that take a value. *)
Definition value_keywords : list string :=
  ["state"; "priority"; "cost"; "hairpin"; "guard"; "root_block";
   "fastleave"; "learning"; "flood"; "mcast_flood"; "proxy_arp";
   "proxy_arp_wifi"; "mcast_router"; "mcast_fast_leave"; "neigh_suppress";
   "group_fwd_mask"; "vlan_tunnel"].

(** The timers with the name each is displayed under. *)
Definition timer_fields : list (Z * string) :=
  [(IFLA_BRPORT_HOLD_TIMER, "hold_timer");
   (IFLA_BRPORT_MESSAGE_AGE_TIMER, "message_age_timer");
   (IFLA_BRPORT_FORWARD_DELAY_TIMER, "forward_delay_timer")].

(** The line printed for an option that no keyword matches. *)
Definition unknown_option (tok : string) : string :=
  "bridge_slave: unknown option " ++ dq ++ tok ++ dq ++ "?" ++ nl.

(** ** Samples for the display of a bridge port *)

(** Text output and JSON output, with a tick of a hundredth of a second. *)
Definition sample_jiffies_to_tv (jiffies : Z) : Z * Z :=
  (10000 * jiffies / 1000000, 10000 * jiffies mod 1000000).

Definition text_display : display_env :=
  mk_display_env false sample_jiffies_to_tv (fun _ => "8000.0:0:0:0:0:0").

Definition json_display : display_env :=
  mk_display_env true sample_jiffies_to_tv (fun _ => "8000.0:0:0:0:0:0").

(** A table that holds one attribute. *)
Definition one_attr (rta : rtattr) : rtattr_table :=
  tb_store tb_empty (rta_type rta) rta.

(** The locals after "port 5555 gue" and after "port 5555" on the sample
    host. *)
Definition gue_locals : fou_locals := mk_fou_locals 45845 1 0 true 0 AF_INET.
Definition port_locals : fou_locals := mk_fou_locals 45845 1 0 false 0 AF_INET.

(** * Properties *)

Lemma tokens_ind (P : list string -> Prop) :
  P [] ->
  (forall a, P [a]) ->
  (forall a v rest, P rest -> P (v :: rest) -> P (a :: v :: rest)) ->
  forall argv, P argv.
Proof.
  intros Hnil Hone Hstep argv.
  assert (H : P argv /\ forall a, P (a :: argv)).
  { induction argv as [|v rest [IH1 IH2]].
    - split; [exact Hnil | exact Hone].
    - split; [apply IH2 | intros a; apply Hstep; [exact IH1 | apply IH2]]. }
  exact (proj1 H).
Qed.

(** ** The FOU options *)

Section FouFacts.

Variable L : library.

Lemma fou_parse_opt_loop_frame argv :
  forall l s r s',
    fou_parse_opt_loop L argv l s = (r, s') ->
    nlmsg s' = nlmsg s /\ sent s' = sent s /\
    (forall x, r = Val x -> s' = s /\ exists l', x = inl l').
Proof.
  assert (Hret : forall (l : fou_locals) s r s',
             (Val (@inl fou_locals Z l), s) = (r, s') -> loop_frame s r s').
  { intros l s r s' H. injection H as <- <-.
    split; [reflexivity | split; [reflexivity |]].
    intros x Hx. injection Hx as <-. eauto. }
  assert (Hleave : forall e s t r s',
             (@Stopped (fou_locals + Z) e, mk_state (nlmsg s) t (sent s)) = (r, s') ->
             loop_frame s r s').
  { intros e s t r s' H. injection H as <- <-.
    split; [reflexivity | split; [reflexivity |]].
    intros x Hx. discriminate. }
  assert (Hleave' : forall e s r s',
             (@Stopped (fou_locals + Z) e, s) = (r, s') -> loop_frame s r s').
  { intros e [n t w]. apply (Hleave e (mk_state n t w) t). }
  fold loop_frame.
  induction argv as [| a | a v rest IH1 IH2] using tokens_ind; intros l s r s' H.
  - apply (Hret _ _ _ _ H).
  - cbn [fou_parse_opt_loop] in H. unfold truthy in H.
    destruct (matches L a "port" =? 0); cbn in H; [apply (Hleave' _ _ _ _ H)|].
    destruct (matches L a "ipproto" =? 0); cbn in H; [apply (Hleave' _ _ _ _ H)|].
    destruct (matches L a "gue" =? 0); cbn in H; [apply (Hret _ _ _ _ H)|].
    destruct (matches L a "-6" =? 0); cbn in H; [apply (Hret _ _ _ _ H)|].
    apply (Hleave _ _ _ _ _ H).
  - cbn [fou_parse_opt_loop] in H. unfold truthy in H.
    destruct (matches L a "port" =? 0); cbn [negb] in H.
    { destruct (get_be16 L v 0) as [p|]; [destruct (p =? 0)|].
      - apply (Hleave' _ _ _ _ H).
      - apply (IH1 _ _ _ _ H).
      - apply (Hleave' _ _ _ _ H). }
    destruct (matches L a "ipproto" =? 0); cbn [negb] in H.
    { destruct (getprotobyname L v) as [pp|]; [apply (IH1 _ _ _ _ H)|].
      destruct (get_u8 L v 0) as [p|]; [destruct (p =? 0)|].
      - apply (Hleave' _ _ _ _ H).
      - apply (IH1 _ _ _ _ H).
      - apply (Hleave' _ _ _ _ H). }
    destruct (matches L a "gue" =? 0); cbn [negb] in H; [apply (IH2 _ _ _ _ H)|].
    destruct (matches L a "-6" =? 0); cbn [negb] in H; [apply (IH2 _ _ _ _ H)|].
    cbn in H. apply (Hleave _ _ _ _ _ H).
Qed.


(** A scan that never reaches the "port" branch leaves [port_set] at 0,
    when it does not stop early with a failure. *)
Lemma fou_parse_opt_loop_without_port argv :
  forall l s,
    port_set l = 0 ->
    port_keyword_consumed L argv = false ->
    match fst (fou_parse_opt_loop L argv l s) with
    | Val (inl l') => port_set l' = 0
    | Val (inr rc) => rc <> 0
    | Stopped e => failed (Stopped e)
    end.
Proof.
  induction argv as [| a | a v rest IH1 IH2] using tokens_ind; intros l s Hl Hc.
  - exact Hl.
  - cbn [fou_parse_opt_loop]. cbn [port_keyword_consumed] in Hc. unfold truthy.
    destruct (matches L a "port" =? 0); [discriminate|].
    destruct (matches L a "ipproto" =? 0); cbn [negb]; [exact I|].
    destruct (matches L a "gue" =? 0); cbn [negb orb]; [exact Hl|].
    destruct (matches L a "-6" =? 0); cbn [negb orb]; [exact Hl|].
    cbn. lia.
  - cbn [fou_parse_opt_loop]. cbn [port_keyword_consumed] in Hc. unfold truthy.
    destruct (matches L a "port" =? 0); [discriminate|].
    destruct (matches L a "ipproto" =? 0); cbn [negb].
    { unfold ipproto_value_ok in Hc.
      destruct (getprotobyname L v) as [pp|].
      - apply IH1; [exact Hl | exact Hc].
      - destruct (get_u8 L v 0) as [p|]; [destruct (p =? 0)|]; cbn in Hc |- *.
        + exact I.
        + apply IH1; [exact Hl | exact Hc].
        + exact I. }
    destruct (matches L a "gue" =? 0); cbn [negb orb] in Hc |- *.
    { apply IH2; [exact Hl | exact Hc]. }
    destruct (matches L a "-6" =? 0); cbn [negb orb] in Hc |- *.
    { apply IH2; [exact Hl | exact Hc]. }
    cbn. lia.
Qed.

(** C3. Whatever the sub-command ([adding] true for add, false for
    delete), a token sequence whose scan never consumes a "port" keyword
    makes [fou_parse_opt] fail: it returns a non-zero value or leaves
    through a usage error, and the request is as it was. *)
Theorem fou_parse_opt_requires_port :
  forall argv adding s,
    port_keyword_consumed L argv = false ->
    failed (fst (fou_parse_opt L argv adding s)) /\
    nlmsg (snd (fou_parse_opt L argv adding s)) = nlmsg s /\
    sent (snd (fou_parse_opt L argv adding s)) = sent s.
Proof.
  intros argv adding s Hc.
  pose proof (fou_parse_opt_loop_without_port argv fou_locals_init s eq_refl Hc) as Hp.
  unfold fou_parse_opt, bind.
  destruct (fou_parse_opt_loop L argv fou_locals_init s) as [r s1] eqn:E.
  destruct (fou_parse_opt_loop_frame argv _ _ _ _ E) as (Hn & Hs & _).
  cbn [fst] in Hp.
  destruct r as [[l' | rc] | e].
  - rewrite Hp. cbn. repeat split; [lia | exact Hn | exact Hs].
  - cbn. repeat split; [exact Hp | exact Hn | exact Hs].
  - cbn [fst snd]. repeat split; [exact Hp | exact Hn | exact Hs].
Qed.

(** C2. When the scan of the tokens has set both [ipproto_set] and
    [gue_set], [fou_parse_opt] returns -1 after one line on stderr and
    before any [addattr] call: the request is unchanged. *)
Theorem fou_parse_opt_rejects_ipproto_with_gue :
  forall argv adding s l s',
    fou_parse_opt_loop L argv fou_locals_init s = (Val (inl l), s') ->
    ipproto_set l <> 0 ->
    gue_set l = true ->
    fou_parse_opt L argv adding s =
      (Val (-1),
       add_stderr s (if port_set l =? 0 then "fou: missing port" ++ nl
                     else "fou: cannot set ipproto and gue" ++ nl)) /\
    nlmsg (snd (fou_parse_opt L argv adding s)) = nlmsg s.
Proof.
  intros argv adding s l s' E Hi Hg.
  destruct (fou_parse_opt_loop_frame argv _ _ _ _ E) as (_ & _ & Hv).
  destruct (Hv _ eq_refl) as [-> _].
  assert (Hrun : fou_parse_opt L argv adding s =
      (Val (-1),
       add_stderr s (if port_set l =? 0 then "fou: missing port" ++ nl
                     else "fou: cannot set ipproto and gue" ++ nl))).
  { unfold fou_parse_opt, bind at 1. rewrite E. unfold truthy.
    rewrite Hg. apply Z.eqb_neq in Hi. rewrite Hi.
    destruct (port_set l =? 0); reflexivity. }
  split; [exact Hrun | rewrite Hrun; reflexivity].
Qed.

(** X1. Whatever the tokens, a run of [fou_parse_opt] that does not
    return 0 has appended nothing: every failure comes before the first
    [addattr] call. *)
Lemma fou_parse_opt_failure_keeps_request :
  forall argv adding s,
    fst (fou_parse_opt L argv adding s) <> Val 0 ->
    nlmsg (snd (fou_parse_opt L argv adding s)) = nlmsg s.
Proof.
  intros argv adding s. unfold fou_parse_opt, bind.
  destruct (fou_parse_opt_loop L argv fou_locals_init s) as [r s1] eqn:E.
  destruct (fou_parse_opt_loop_frame argv _ _ _ _ E) as (Hn & _ & _).
  destruct r as [[l | rc] | e]; [|intros _; exact Hn | intros _; exact Hn].
  destruct (negb (truthy (port_set l))); [intros _; exact Hn|].
  destruct (negb (truthy (ipproto_set l)) && negb (gue_set l) && adding);
    [intros _; exact Hn|].
  destruct (truthy (ipproto_set l) && gue_set l); [intros _; exact Hn|].
  intros Hfail. exfalso. apply Hfail.
  unfold addattr16, addattr8, with_nlmsg, ret.
  repeat match goal with
         | |- context [addattr_l ?n ?m ?t ?d] => destruct (addattr_l n m t d)
         | |- context [if ?c then _ else _] => destruct c
         end; reflexivity.
Qed.

(** Neither [do_add] nor [do_del] looks at what [fou_parse_opt] returned:
    whenever it returns, with whatever value, the request goes out. *)
Lemma do_add_talks_whatever_parse_returns :
  forall argv s rc s1,
    fou_parse_opt L argv true (set_nlmsg s (fou_request L FOU_CMD_ADD)) = (Val rc, s1) ->
    sent (snd (do_add L argv s)) = (sent s1 ++ [nlmsg s1])%list.
Proof.
  intros argv s rc s1 H. unfold do_add, bind, FOU_REQUEST.
  change (mk_state _ (stderr s) (sent s)) with (set_nlmsg s (fou_request L FOU_CMD_ADD)).
  rewrite H. unfold rtnl_talk. destruct (_ <? 0); reflexivity.
Qed.

(** C1. With no option at all ("ip fou add", "ip fou delete") the parse
    fails: it prints "fou: missing port", returns -1 and appends nothing.
    [do_add] and [do_del] nevertheless hand the bare request to
    [rtnl_talk]. *)
Theorem do_add_do_del_talk_after_parse_failure :
  forall s,
    fou_parse_opt L [] true (set_nlmsg s (fou_request L FOU_CMD_ADD)) =
      (Val (-1), add_stderr (set_nlmsg s (fou_request L FOU_CMD_ADD))
                   ("fou: missing port" ++ nl)) /\
    sent (snd (do_add L [] s)) = (sent s ++ [fou_request L FOU_CMD_ADD])%list /\
    sent (snd (do_del L [] s)) = (sent s ++ [fou_request L FOU_CMD_DEL])%list.
Proof.
  intros s. split; [reflexivity|].
  unfold do_add, do_del, bind. cbn.
  split; destruct (_ <? 0); reflexivity.
Qed.

End FouFacts.

Section BridgeFacts.

Variable L : library.

(** Follow the [if]/[else if] chain of [bridge_slave_parse_opt] down to
    the branch that [H : selects L a kw] names. *)
Ltac follow_chain H :=
  unfold selects, bridge_slave_keywords in H; cbn [first_match] in H;
  cbn [bridge_slave_parse_opt];
  repeat match type of H with
         | context [matches ?lib ?a ?k =? 0] =>
             revert H; destruct (matches lib a k =? 0); intro H;
             try discriminate H
         end;
  cbv beta iota.

Lemma addattr8_run maxlen type data s :
  addattr8 maxlen type data s =
    (Val (fst (addattr_l (nlmsg s) maxlen type [Z.land data 255])),
     set_nlmsg s (snd (addattr_l (nlmsg s) maxlen type [Z.land data 255]))).
Proof.
  unfold addattr8, with_nlmsg, set_nlmsg.
  destruct (addattr_l (nlmsg s) maxlen type [Z.land data 255]); reflexivity.
Qed.

(** An append that fits adds exactly one record at the end. *)
Lemma addattr_l_fits n maxlen type data :
  NLMSG_ALIGN (nlmsg_len n) + RTA_ALIGN (RTA_LENGTH (Z.of_nat (length data))) <= maxlen ->
  fst (addattr_l n maxlen type data) = 0 /\
  attrs (snd (addattr_l n maxlen type data)) = (attrs n ++ [mk_rtattr type data])%list.
Proof.
  intros H. unfold addattr_l.
  destruct (Z.gtb_spec (NLMSG_ALIGN (nlmsg_len n) +
                        RTA_ALIGN (RTA_LENGTH (Z.of_nat (length data)))) maxlen);
    [lia | split; reflexivity].
Qed.

(** C5. [bridge_slave_parse_on_off] turns exactly "on" into the byte 1
    and exactly "off" into the byte 0, passes that byte to [addattr8]
    under the given type and returns 0; any other value token leaves
    through [invarg] with the keyword as the offending argument, and the
    request is not touched. *)
Theorem bridge_slave_parse_on_off_bytes :
  forall arg_name type s,
    bridge_slave_parse_on_off arg_name "on" type s =
      (Val 0, set_nlmsg s (snd (addattr_l (nlmsg s) 1024 type [1]))) /\
    bridge_slave_parse_on_off arg_name "off" type s =
      (Val 0, set_nlmsg s (snd (addattr_l (nlmsg s) 1024 type [0]))) /\
    (forall arg_val,
        arg_val <> "on" -> arg_val <> "off" ->
        bridge_slave_parse_on_off arg_name arg_val type s =
          (Stopped (Invarg on_off_msg arg_name), s)).
Proof.
  intros arg_name type s. unfold bridge_slave_parse_on_off.
  split; [|split].
  - cbn [String.eqb Ascii.eqb Bool.eqb]. unfold bind. rewrite addattr8_run. reflexivity.
  - cbn [String.eqb Ascii.eqb Bool.eqb]. unfold bind. rewrite addattr8_run. reflexivity.
  - intros arg_val Hon Hoff.
    destruct (String.eqb_spec arg_val "on"); [contradiction|].
    destruct (String.eqb_spec arg_val "off"); [contradiction|].
    reflexivity.
Qed.

(** C4, as the code has it.  A token that selects the "state" branch is
    followed by a value read with [get_u8]: every value [get_u8] accepts
    is passed to [addattr8] as [IFLA_BRPORT_STATE] and the scan goes on;
    a value [get_u8] refuses leaves through [invarg] "state is invalid"
    naming the value, with the request untouched.  No comparison with
    the range 0..4 takes place. *)
Theorem bridge_slave_parse_opt_state :
  forall kw v rest s,
    selects L kw "state" ->
    bridge_slave_parse_opt L (kw :: v :: rest) s =
      match get_u8 L v 0 with
      | Some state =>
          (addattr8 1024 IFLA_BRPORT_STATE state ;;
           bridge_slave_parse_opt L rest) s
      | None => (Stopped (Invarg "state is invalid" v), s)
      end.
Proof.
  intros kw v rest s H. follow_chain H.
  destruct (get_u8 L v 0); reflexivity.
Qed.

(** C8. A token that selects "fastleave" and a token that selects
    "mcast_fast_leave", followed by the same value "on" or "off", have
    the same effect: [addattr8] of [IFLA_BRPORT_FAST_LEAVE] with the byte
    1 for "on" and 0 for "off", then the rest of the scan.  The two
    requests are equal, so is everything decoded from them. *)
Theorem fastleave_mcast_fast_leave_alias :
  forall kw1 kw2 v rest s,
    selects L kw1 "fastleave" ->
    selects L kw2 "mcast_fast_leave" ->
    v = "on" \/ v = "off" ->
    bridge_slave_parse_opt L (kw1 :: v :: rest) s =
      (addattr8 1024 IFLA_BRPORT_FAST_LEAVE (if String.eqb v "on" then 1 else 0) ;;
       bridge_slave_parse_opt L rest) s /\
    bridge_slave_parse_opt L (kw2 :: v :: rest) s =
      bridge_slave_parse_opt L (kw1 :: v :: rest) s.
Proof.
  intros kw1 kw2 v rest s H1 H2 Hv.
  assert (Hstep : forall name,
             (rc <- bridge_slave_parse_on_off name v IFLA_BRPORT_FAST_LEAVE ;;
              if truthy rc then ret (-1) else bridge_slave_parse_opt L rest) s =
             (addattr8 1024 IFLA_BRPORT_FAST_LEAVE (if String.eqb v "on" then 1 else 0) ;;
              bridge_slave_parse_opt L rest) s).
  { intros name. unfold bridge_slave_parse_on_off.
    destruct Hv as [-> | ->]; cbn [String.eqb Ascii.eqb Bool.eqb];
      unfold bind; rewrite addattr8_run; reflexivity. }
  assert (E1 : bridge_slave_parse_opt L (kw1 :: v :: rest) s =
               (addattr8 1024 IFLA_BRPORT_FAST_LEAVE (if String.eqb v "on" then 1 else 0) ;;
                bridge_slave_parse_opt L rest) s).
  { follow_chain H1. apply Hstep. }
  split; [exact E1|].
  rewrite E1. follow_chain H2. apply Hstep.
Qed.

End BridgeFacts.


(** ** Display of a bridge port *)

(** C7. For every 8-bit state, [print_portstate] prints the name of the
    state under the key "state" when the value is at most 4 (disabled,
    listening, learning, forwarding, blocking) and prints the number
    itself under the key "state_index" when it is larger; it is total,
   so no value makes it fail. *)
Theorem print_portstate_name_or_number :
  forall state,
    0 <= state <= 255 ->
    print_portstate state =
      if state <=? 4 then
        [print_string PRINT_ANY (Some "state") (Some "state %s ")
           (Some (nth (Z.to_nat state) port_state_names ""))]
      else
        [print_int PRINT_ANY (Some "state_index") (Some "state (%d) ") state].
Proof.
  intros state Hr. unfold print_portstate.
  change BR_STATE_BLOCKING with 4.
  destruct (Z.leb_spec state 4) as [Hle | Hgt]; [|reflexivity].
  assert (Hc : state = 0 \/ state = 1 \/ state = 2 \/ state = 3 \/ state = 4) by lia.
  destruct Hc as [-> | [-> | [-> | [-> | ->]]]]; reflexivity.
Qed.


(** ** Strings and the forwarding mask *)

Lemma append_empty_r s : s ++ "" = s.
Proof. induction s as [|c s IH]; cbn; [reflexivity | now rewrite IH]. Qed.

Lemma append_assoc s t u : (s ++ t) ++ u = s ++ (t ++ u).
Proof. induction s as [|c s IH]; cbn; [reflexivity | now rewrite IH]. Qed.

Lemma strlen_append s t : strlen (s ++ t) = strlen s + strlen t.
Proof.
  unfold strlen. induction s as [|c s IH]; cbn [String.append String.length]; lia.
Qed.

Lemma strlen_nonneg s : 0 <= strlen s.
Proof. unfold strlen. lia. Qed.

Lemma substring_all s n : (String.length s <= n)%nat -> substring 0 n s = s.
Proof.
  revert n. induction s as [|c s IH]; intros n H.
  - destruct n; reflexivity.
  - destruct n; cbn in H |- *; [lia|]. f_equal. apply IH. lia.
Qed.

Lemma substring_left s t : substring 0 (String.length s) (s ++ t) = s.
Proof.
  induction s as [|c s IH]; cbn.
  - destruct t; reflexivity.
  - now rewrite IH.
Qed.

Lemma snprintf_room dst size text :
  strlen text < size ->
  snprintf dst (strlen dst) size text = Some (dst ++ text).
Proof.
  intros H. pose proof (strlen_nonneg text) as Ht. unfold snprintf.
  destruct (Z.ltb_spec size 0); [lia|].
  destruct (Z.eqb_spec size 0); [lia|].
  rewrite Z.leb_refl. unfold strlen in *. rewrite Nat2Z.id.
  rewrite (substring_all dst) by lia. rewrite (substring_all text) by lia.
  reflexivity.
Qed.

Lemma shiftr_1_bound fuel bitmask :
  0 <= bitmask < 2 ^ Z.of_nat (S fuel) ->
  0 <= Z.shiftr bitmask 1 < 2 ^ Z.of_nat fuel.
Proof.
  intros H. rewrite Z.shiftr_div_pow2 by lia. change (2 ^ 1) with 2.
  rewrite Nat2Z.inj_succ, Z.pow_succ_r in H by lia.
  split; [apply Z.div_pos; lia | apply Z.div_lt_upper_bound; lia].
Qed.

(** With room for everything it writes, the loop appends [loop_text]. *)
Lemma _bitmask2str_loop_room tbl dst_size fuel :
  forall bitmask i dst,
    0 <= bitmask < 2 ^ Z.of_nat fuel ->
    strlen dst + strlen (loop_text fuel bitmask i tbl) < dst_size ->
    _bitmask2str_loop fuel bitmask i (strlen dst) dst dst_size tbl =
      Some (strlen dst + strlen (loop_text fuel bitmask i tbl),
            dst ++ loop_text fuel bitmask i tbl).
Proof.
  induction fuel as [|fuel IH]; intros bitmask i dst Hb Hroom.
  - cbn [_bitmask2str_loop loop_text] in *.
    destruct (Z.eqb_spec bitmask 0); [|cbn in Hb; lia].
    rewrite append_empty_r. f_equal. f_equal. cbn. lia.
  - cbn [_bitmask2str_loop loop_text] in *.
    destruct (Z.eqb_spec bitmask 0).
    { rewrite append_empty_r. f_equal. f_equal. cbn. lia. }
    fold (bit_text tbl i).
    pose proof (shiftr_1_bound _ _ Hb) as Hb'.
    destruct (negb (Z.land bitmask 1 =? 0)).
    + rewrite strlen_append in Hroom.
      pose proof (strlen_nonneg (loop_text fuel (Z.shiftr bitmask 1) (i + 1) tbl)).
      rewrite snprintf_room by lia.
      replace (strlen dst + strlen (bit_text tbl i)) with (strlen (dst ++ bit_text tbl i))
        by apply strlen_append.
      rewrite IH; [|exact Hb' | rewrite strlen_append; lia].
      rewrite !strlen_append, append_assoc. f_equal. f_equal. lia.
    + cbn [String.append] in Hroom |- *. apply IH; assumption.
Qed.

Lemma bit_text_text_of tbl i : bit_text tbl i = text_of tbl i ++ ",".
Proof.
  unfold bit_text, text_of. destruct (tbl i); [reflexivity|].
  now rewrite append_assoc.
Qed.

Lemma filter_none {A} (f : A -> bool) l :
  (forall x, In x l -> f x = false) -> filter f l = [].
Proof.
  induction l as [|x l IH]; intros H; cbn; [reflexivity|].
  rewrite (H x (or_introl eq_refl)). apply IH. intros y Hy. apply H. now right.
Qed.

(** The loop visits the set bits from bit [k] upwards. *)
Lemma loop_text_set_bits tbl fuel :
  forall bitmask k,
    0 <= bitmask < 2 ^ Z.of_nat fuel ->
    loop_text fuel bitmask (Z.of_nat k) tbl =
      terminated
        (map (fun j => text_of tbl (Z.of_nat j))
           (filter (fun j => Z.testbit bitmask (Z.of_nat j - Z.of_nat k))
              (seq k fuel))).
Proof.
  induction fuel as [|fuel IH]; intros bitmask k Hb.
  - cbn. destruct (bitmask =? 0); reflexivity.
  - cbn [loop_text].
    destruct (Z.eqb_spec bitmask 0) as [-> | Hne].
    { rewrite filter_none; [reflexivity|]. intros x _. apply Z.testbit_0_l. }
    cbn [seq filter]. rewrite Z.sub_diag.
    replace (Z.of_nat k + 1) with (Z.of_nat (S k)) by lia.
    rewrite IH by (apply shiftr_1_bound; exact Hb).
    assert (Hrest :
      filter (fun j => Z.testbit (Z.shiftr bitmask 1) (Z.of_nat j - Z.of_nat (S k)))
        (seq (S k) fuel) =
      filter (fun j => Z.testbit bitmask (Z.of_nat j - Z.of_nat k)) (seq (S k) fuel)).
    { apply filter_ext_in. intros j Hj. apply in_seq in Hj.
      rewrite Z.shiftr_spec by lia. f_equal. lia. }
    rewrite Hrest.
    assert (Hbit : negb (Z.land bitmask 1 =? 0) = Z.testbit bitmask 0).
    { rewrite Z.bit0_odd. change 1 with (Z.ones 1). rewrite Z.land_ones by lia.
      change (2 ^ 1) with 2. rewrite Zodd_mod.
      destruct (Z.eqb_spec (bitmask mod 2) 0) as [-> | H1]; [reflexivity|].
      assert (bitmask mod 2 = 1) as -> by (pose proof (Z.mod_pos_bound bitmask 2); lia).
      reflexivity. }
    rewrite Hbit. destruct (Z.testbit bitmask 0); cbn [map terminated].
    + rewrite bit_text_text_of, append_assoc. reflexivity.
    + reflexivity.
Qed.

Lemma substring_app s m t :
  substring 0 (String.length s + m) (s ++ t) = s ++ substring 0 m t.
Proof. induction s as [|c s IH]; cbn; [reflexivity | now rewrite IH]. Qed.

Lemma terminated_length t texts :
  String.length (terminated (t :: texts)) =
    S (String.length t + String.length (terminated texts)).
Proof.
  cbn [terminated]. induction t as [|c t IH]; cbn; [reflexivity|].
  cbn in IH. rewrite IH. reflexivity.
Qed.

(** Dropping the last separator leaves the comma-joined list. *)
Lemma terminated_drop_last t texts :
  substring 0 (String.length (terminated (t :: texts)) - 1) (terminated (t :: texts)) =
    String.concat "," (t :: texts).
Proof.
  revert t. induction texts as [|t' texts IH]; intros t.
  - rewrite terminated_length. cbn [terminated String.concat String.length].
    replace (S (String.length t + 0) - 1)%nat with (String.length t + 0)%nat by lia.
    rewrite substring_app. cbn. apply append_empty_r.
  - rewrite terminated_length.
    change (terminated (t :: t' :: texts)) with (t ++ "," ++ terminated (t' :: texts)).
    change (String.concat "," (t :: t' :: texts))
      with (t ++ "," ++ String.concat "," (t' :: texts)).
    rewrite <- IH.
    replace (S (String.length t + String.length (terminated (t' :: texts))) - 1)%nat
      with (String.length t + S (String.length (terminated (t' :: texts)) - 1))%nat
      by (rewrite terminated_length; lia).
    rewrite substring_app. f_equal.
Qed.

Lemma loop_text_budget tbl fuel :
  forall bitmask i, strlen (loop_text fuel bitmask i tbl) <= text_budget tbl fuel i.
Proof.
  induction fuel as [|fuel IH]; intros bitmask i; cbn [loop_text text_budget].
  - destruct (bitmask =? 0); cbn; lia.
  - pose proof (strlen_nonneg (bit_text tbl i)).
    assert (0 <= text_budget tbl fuel (i + 1)).
    { specialize (IH 0 (i + 1)).
      pose proof (strlen_nonneg (loop_text fuel 0 (i + 1) tbl)). lia. }
    destruct (bitmask =? 0); [cbn; lia|].
    rewrite strlen_append. specialize (IH (Z.shiftr bitmask 1) (i + 1)).
    destruct (negb _); cbn [strlen String.length Z.of_nat]; lia.
Qed.

Lemma fwd_mask_texts (bits : list nat) :
  Forall (fun j => (j < 16)%nat) bits ->
  map (fun j => text_of fwd_mask_tbl (Z.of_nat j)) bits = map fwd_mask_bit_text bits.
Proof.
  intros H. apply map_ext_in. intros j Hj.
  rewrite Forall_forall in H. specialize (H j Hj).
  do 16 (destruct j as [|j]; [reflexivity|]). lia.
Qed.

(** For the forwarding-mask table the loop writes the texts of the set
    bits, each followed by a comma. *)
Lemma loop_text_fwd_mask mask :
  0 <= mask <= 65535 ->
  loop_text 16 mask 0 fwd_mask_tbl =
    terminated (map fwd_mask_bit_text (set_bits mask)).
Proof.
  intros Hr.
  assert (Hb : 0 <= mask < 2 ^ Z.of_nat 16)
    by (change (2 ^ Z.of_nat 16) with 65536; lia).
  pose proof (loop_text_set_bits fwd_mask_tbl 16 mask 0 Hb) as Htext.
  change (Z.of_nat 0) with 0 in Htext. rewrite Htext.
  unfold set_bits.
  assert (Hsame :
    filter (fun j => Z.testbit mask (Z.of_nat j - 0)) (seq 0 16) =
    filter (fun i => Z.testbit mask (Z.of_nat i)) (seq 0 16)).
  { apply filter_ext. intros j. now rewrite Z.sub_0_r. }
  rewrite Hsame. f_equal. apply fwd_mask_texts.
  apply Forall_forall. intros j Hj. apply filter_In in Hj.
  destruct Hj as [Hj _]. apply in_seq in Hj. lia.
Qed.

(** C6. For every 16-bit forwarding mask, [_bitmask2str] with the
    256-byte buffer and [fwd_mask_tbl] leaves in the buffer the rendering
    of the specification: "0x0" for the empty mask, otherwise the texts
    of the set bits in ascending order ("stp" for bit 0, "lacp" for bit
    2, "lldp" for bit 14, the hexadecimal form of [1 << i] for any other
    bit [i]) joined by commas, with no comma at the end. *)
Theorem bitmask2str_fwd_mask :
  forall mask,
    0 <= mask <= 65535 ->
    _bitmask2str mask 256 fwd_mask_tbl = Some (render_fwd_mask mask).
Proof.
  intros mask Hr. unfold _bitmask2str.
  assert (Hm : Z.land mask 65535 = mask).
  { change 65535 with (Z.ones 16). rewrite Z.land_ones by lia.
    apply Z.mod_small. lia. }
  rewrite Hm.
  pose proof (loop_text_budget fwd_mask_tbl 16 mask 0) as Hbudget.
  change (text_budget fwd_mask_tbl 16 0) with 87 in Hbudget.
  pose proof (_bitmask2str_loop_room fwd_mask_tbl 256 16 mask 0 "") as Hloop.
  change (strlen "") with 0 in Hloop. cbn [String.append] in Hloop.
  rewrite Hloop; [|change (2 ^ Z.of_nat 16) with 65536; lia | lia].
  clear Hloop. rewrite (loop_text_fwd_mask mask Hr) in *.
  unfold render_fwd_mask.
  destruct (set_bits mask) as [|b bits].
  - reflexivity.
  - cbn [map] in *. set (t := fwd_mask_bit_text b) in *.
    set (ts := map fwd_mask_bit_text bits) in *.
    rewrite Z.add_0_l.
    assert (Hlen : strlen (terminated (t :: ts)) =
                   Z.of_nat (String.length (terminated (t :: ts)))) by reflexivity.
    pose proof (terminated_length t ts) as Hs.
    destruct (Z.eqb_spec (strlen (terminated (t :: ts))) 0); [lia|].
    destruct (Z.ltb_spec (strlen (terminated (t :: ts)) - 1) 256); [|lia].
    f_equal. rewrite <- terminated_drop_last. f_equal. lia.
Qed.

(** ** Byte order and the FOU port *)

Lemma testbit_255 n : 0 <= n -> Z.testbit 255 n = (n <? 8).
Proof. intros H. change 255 with (Z.ones 8). apply Z.testbit_ones_nonneg; lia. Qed.

Lemma testbit_u16_high p n : 0 <= p < 65536 -> 16 <= n -> Z.testbit p n = false.
Proof.
  intros Hp Hn. destruct (Z.eq_dec p 0) as [-> | Hp0]; [apply Z.testbit_0_l|].
  apply Z.bits_above_log2; [lia|].
  assert (Z.log2 p < 16) by (apply Z.log2_lt_pow2; lia). lia.
Qed.

(** Bit [n] of the swapped value. *)
Lemma bswap_16_spec v n :
  0 <= n ->
  Z.testbit (bswap_16 v) n =
    if n <? 8 then Z.testbit v (n + 8)
    else if n <? 16 then Z.testbit v (n - 8) else false.
Proof.
  intros Hn. unfold bswap_16.
  rewrite Z.lor_spec, Z.land_spec, testbit_255, Z.shiftr_spec by lia.
  destruct (Z.ltb_spec n 8).
  - rewrite Z.shiftl_spec_low by lia. rewrite andb_true_r. reflexivity.
  - rewrite Z.shiftl_spec by lia. rewrite Z.land_spec, testbit_255 by lia.
    rewrite andb_false_r, orb_false_r.
    destruct (Z.ltb_spec n 16); destruct (Z.ltb_spec (n - 8) 8); try lia.
    all: try apply andb_true_r; try apply andb_false_r.
Qed.

Lemma bswap_16_involutive p : 0 <= p < 65536 -> bswap_16 (bswap_16 p) = p.
Proof.
  intros Hp. apply Z.bits_inj'. intros n Hn.
  rewrite bswap_16_spec by lia.
  destruct (Z.ltb_spec n 8).
  - rewrite bswap_16_spec by lia.
    destruct (Z.ltb_spec (n + 8) 8); [lia|].
    destruct (Z.ltb_spec (n + 8) 16); [|lia].
    f_equal. lia.
  - destruct (Z.ltb_spec n 16).
    + rewrite bswap_16_spec by lia.
      destruct (Z.ltb_spec (n - 8) 8); [|lia]. f_equal. lia.
    + symmetry. apply testbit_u16_high; lia.
Qed.

Lemma land_65535_u16 p : 0 <= p < 65536 -> Z.land p 65535 = p.
Proof.
  intros Hp. change 65535 with (Z.ones 16). rewrite Z.land_ones by lia.
  apply Z.mod_small. lia.
Qed.

Lemma bswap_16_range v : 0 <= bswap_16 v < 65536.
Proof.
  assert (H0 : 0 <= bswap_16 v).
  { unfold bswap_16. apply Z.lor_nonneg. split.
    - apply Z.shiftl_nonneg. apply Z.land_nonneg. right. lia.
    - apply Z.land_nonneg. right. lia. }
  split; [exact H0|].
  destruct (Z.eq_dec (bswap_16 v) 0) as [-> | Hne]; [lia|].
  apply Z.log2_lt_pow2 with (b := 16); [lia|].
  apply Z.nle_gt. intros Hlog.
  assert (Hb : Z.testbit (bswap_16 v) (Z.log2 (bswap_16 v)) = true)
    by (apply Z.bit_log2; lia).
  rewrite bswap_16_spec in Hb by lia.
  destruct (Z.ltb_spec (Z.log2 (bswap_16 v)) 8); [lia|].
  destruct (Z.ltb_spec (Z.log2 (bswap_16 v)) 16); [lia | discriminate].
Qed.

(** What [rta_getattr_u16] reads from the two bytes [addattr16] stored. *)
Lemma rta_getattr_u16_u16_bytes le t v :
  0 <= v < 65536 ->
  rta_getattr_u16 le (mk_rtattr t (u16_bytes le v)) = v.
Proof.
  intros Hv. unfold rta_getattr_u16, u16_bytes.
  assert (Hbits : Z.lor (Z.land v 255) (Z.shiftl (Z.land (Z.shiftr v 8) 255) 8) = v).
  { apply Z.bits_inj'. intros n Hn.
    rewrite Z.lor_spec, Z.land_spec, testbit_255 by lia.
    destruct (Z.ltb_spec n 8).
    - rewrite Z.shiftl_spec_low by lia. now rewrite andb_true_r, orb_false_r.
    - rewrite Z.shiftl_spec by lia. rewrite Z.land_spec, testbit_255, Z.shiftr_spec by lia.
      rewrite andb_false_r. cbn [orb]. replace (n - 8 + 8) with n by lia.
      destruct (Z.ltb_spec (n - 8) 8); [apply andb_true_r|].
      rewrite andb_false_r. symmetry. apply testbit_u16_high; lia. }
  destruct le; cbn [rta_data nth]; [exact Hbits|].
  rewrite Z.lor_comm. exact Hbits.
Qed.

(** The port as parsed, stored, read back and converted: the value
    returns, and the two bytes stored are the high byte then the low
    byte whatever the host's byte order. *)
Lemma port_bytes_round_trip le t p :
  0 <= p < 65536 ->
  ntohs le (rta_getattr_u16 le (mk_rtattr t (u16_bytes le (htons le p)))) = p /\
  u16_bytes le (htons le p) = [Z.shiftr p 8; Z.land p 255].
Proof.
  intros Hp.
  assert (Hh : 0 <= htons le p < 65536).
  { unfold htons. destruct le; [apply bswap_16_range|].
    rewrite land_65535_u16; lia. }
  split.
  - rewrite rta_getattr_u16_u16_bytes by exact Hh.
    unfold ntohs, htons. destruct le.
    + apply bswap_16_involutive; exact Hp.
    + rewrite !land_65535_u16; try lia. rewrite land_65535_u16; lia.
  - unfold u16_bytes, htons. destruct le.
    + f_equal; [|f_equal].
      * apply Z.bits_inj'. intros n Hn.
        rewrite Z.land_spec, testbit_255, bswap_16_spec, Z.shiftr_spec by lia.
        destruct (Z.ltb_spec n 8); [apply andb_true_r|].
        rewrite andb_false_r. symmetry. apply testbit_u16_high; lia.
      * apply Z.bits_inj'. intros n Hn.
        rewrite !Z.land_spec, !testbit_255, Z.shiftr_spec, bswap_16_spec by lia.
        destruct (Z.ltb_spec n 8); [|now rewrite !andb_false_r].
        destruct (Z.ltb_spec (n + 8) 8); [lia|].
        destruct (Z.ltb_spec (n + 8) 16); [|lia].
        f_equal. f_equal. lia.
    + rewrite land_65535_u16 by lia. f_equal.
      apply Z.bits_inj'. intros n Hn.
      rewrite Z.land_spec, testbit_255, !Z.shiftr_spec by lia.
      destruct (Z.ltb_spec n 8); [apply andb_true_r|].
      rewrite andb_false_r. symmetry. apply testbit_u16_high; lia.
Qed.

Section PortRoundTrip.

Variable L : library.

Lemma htons_nonzero le p : 1 <= p <= 65535 -> htons le p <> 0.
Proof.
  intros Hp H0.
  destruct (port_bytes_round_trip le 0 p ltac:(lia)) as [Hrt _].
  rewrite H0 in Hrt. destruct le; cbn in Hrt; lia.
Qed.

(** C9. For every port [p] in 1..65535 that the value token denotes,
    "port p" on the delete path stores the two bytes of [p] in network
    order (high byte first, whatever the host's byte order), and
    [print_fou_mapping] on the request that was built reads them back
    and prints [p] itself. *)
Theorem fou_port_round_trip :
  forall kw tok p s,
    1 <= p <= 65535 ->
    matches L kw "port" = 0 ->
    get_u16 L tok 0 = Some p ->
    let req :=
      mk_nlmsghdr 44 (genl_family L) NLM_F_REQUEST FOU_CMD_DEL FOU_GENL_VERSION
        [mk_rtattr FOU_ATTR_PORT [Z.shiftr p 8; Z.land p 255];
         mk_rtattr FOU_ATTR_TYPE [FOU_ENCAP_DIRECT];
         mk_rtattr FOU_ATTR_AF [AF_INET]] in
    do_del L [kw; tok] s =
      (Val (if rtnl_talk_result L req <? 0 then -2 else 0),
       mk_state req (stderr s) (sent s ++ [req])%list) /\
    snd (print_fou_mapping L req) =
      [open_json_object None;
       print_uint PRINT_ANY (Some "port") (Some "port %u") p;
       print_string PRINT_JSON (Some "family") None (Some (family_name L AF_INET));
       print_string PRINT_FP None (Some nl) None;
       close_json_object].
Proof.
  intros kw tok p s Hp Hm Hg req.
  destruct (port_bytes_round_trip (little_endian L) FOU_ATTR_PORT p ltac:(lia))
    as [Hrt Hbytes].
  split.
  - unfold do_del, fou_parse_opt. cbn [fou_parse_opt_loop].
    unfold get_be16, truthy. rewrite Hm, Hg. cbn [Z.eqb negb].
    destruct (Z.eqb_spec (htons (little_endian L) p) 0) as [H0 | _];
      [exfalso; exact (htons_nonzero _ _ Hp H0)|].
    unfold bind, FOU_REQUEST, ret, addattr16, addattr8, with_nlmsg, rtnl_talk, addattr_l.
    cbn [nlmsg stderr sent port port_set ipproto gue_set ipproto_set family
         nlmsg_len nlmsg_type nlmsg_flags genl_cmd genl_version attrs
         fou_locals_init Z.eqb negb andb truthy].
    rewrite Hbytes. subst req.
    generalize (Z.shiftr p 8) (Z.land p 255). intros hi lo.
    cbn. destruct (_ <? 0); reflexivity.
  - rewrite Hbytes in Hrt. subst req. unfold print_fou_mapping.
    cbn [nlmsg_type nlmsg_len attrs]. rewrite Z.eqb_refl. cbn [negb].
    revert Hrt. generalize (Z.shiftr p 8) (Z.land p 255). intros hi lo Hrt.
    cbn -[ntohs rta_getattr_u16]. rewrite Hrt. reflexivity.
Qed.

End PortRoundTrip.

Lemma printed_existsb key out :
  printed key out <-> existsb (has_key key) out = true.
Proof.
  unfold printed. rewrite existsb_exists. split; intros (c & Hin & Hk); exists c;
    (split; [exact Hin|]); unfold has_key in *.
  - rewrite Hk. apply String.eqb_refl.
  - destruct (call_key c) as [k|]; [|discriminate].
    apply String.eqb_eq in Hk. congruence.
Qed.

Section GueOrIpproto.

Variable L : library.

Ltac scan_calls :=
  repeat match goal with
         | H : printed _ _ |- _ => destruct H as (?c & ?Hin & ?Hk)
         | H : In _ (_ :: _) |- _ => destruct H as [<- | H]
         | H : In _ [] |- _ => destruct H
         | H : call_key _ = Some _ |- _ => cbn in H; try discriminate H
         end.

Ltac find_call := apply printed_existsb; reflexivity.

(** C10. In the output of [print_fou_mapping], "gue" is printed exactly
    when the message is displayed and its type attribute is present and
    equal to [FOU_ENCAP_GUE]; "ipproto" is printed exactly when the
    message is displayed, that condition fails and the ipproto attribute
    is present.  So an ipproto attribute is not printed next to "gue",
    and the two never appear together. *)
Theorem print_fou_mapping_gue_or_ipproto :
  forall n,
    let tb := parse_rtattr FOU_ATTR_MAX (attrs n)
                (nlmsg_len n - NLMSG_LENGTH GENL_HDRLEN) in
    let out := snd (print_fou_mapping L n) in
    (printed "gue" out <-> displayed L n = true /\ is_gue tb = true) /\
    (printed "ipproto" out <->
       displayed L n = true /\ is_gue tb = false /\ tb FOU_ATTR_IPPROTO <> None) /\
    ~ (printed "gue" out /\ printed "ipproto" out).
Proof.
  intros n tb out.
  assert (Hg : printed "gue" out <-> displayed L n = true /\ is_gue tb = true).
  { subst out. unfold print_fou_mapping, displayed.
    destruct (nlmsg_type n =? genl_family L); cbn [negb andb snd];
      [|split; [intros H; scan_calls | intros [H _]; discriminate]].
    destruct (Z.ltb_spec (nlmsg_len n - NLMSG_LENGTH GENL_HDRLEN) 0) as [Hlt | Hge].
    { cbn [snd]. split; [intros H; scan_calls|].
      intros [H _]. apply Z.leb_le in H. lia. }
    fold tb. fold (is_gue tb).
    destruct (tb FOU_ATTR_PORT), (is_gue tb), (tb FOU_ATTR_IPPROTO),
      (tb FOU_ATTR_AF) as [af|]; try destruct (rta_getattr_u8 af =? AF_INET6);
      cbn [app snd]; (split; [intros H | intros [_ H]]);
      try discriminate H; try (scan_calls; fail);
      try (split; [apply Z.leb_le; lia | reflexivity]); find_call. }
  assert (Hi : printed "ipproto" out <->
       displayed L n = true /\ is_gue tb = false /\ tb FOU_ATTR_IPPROTO <> None).
  { subst out. unfold print_fou_mapping, displayed.
    destruct (nlmsg_type n =? genl_family L); cbn [negb andb snd];
      [|split; [intros H; scan_calls | intros [H _]; discriminate]].
    destruct (Z.ltb_spec (nlmsg_len n - NLMSG_LENGTH GENL_HDRLEN) 0) as [Hlt | Hge].
    { cbn [snd]. split; [intros H; scan_calls|].
      intros [H _]. apply Z.leb_le in H. lia. }
    fold tb. fold (is_gue tb).
    destruct (tb FOU_ATTR_PORT), (is_gue tb), (tb FOU_ATTR_IPPROTO),
      (tb FOU_ATTR_AF) as [af|]; try destruct (rta_getattr_u8 af =? AF_INET6);
      cbn [app snd]; (split; [intros H | intros (_ & H1 & H2)]);
      try discriminate H1; try congruence; try (scan_calls; fail);
      try (split; [apply Z.leb_le; lia | split; [reflexivity | discriminate]]);
      find_call. }
  split; [exact Hg | split; [exact Hi |]].
  intros [H1 H2]. apply Hg in H1. apply Hi in H2.
  destruct H1 as [_ H1]. destruct H2 as (_ & H2 & _). congruence.
Qed.

End GueOrIpproto.

(** ** The properties at work on the sample host *)

Example render_fwd_mask_examples :
  render_fwd_mask 0 = "0x0" /\
  render_fwd_mask 5 = "stp,lacp" /\
  render_fwd_mask 37 = "stp,lacp,0x20".
Proof. repeat split; reflexivity. Qed.

Lemma fou_parse_opt_rejects_ipproto_with_gue_witness :
  fou_parse_opt_loop linux_host ["port"; "5555"; "ipproto"; "47"; "gue"]
    fou_locals_init start = (Val (inl both_set_locals), start) /\
  ipproto_set both_set_locals <> 0 /\
  gue_set both_set_locals = true /\
  fou_parse_opt linux_host ["port"; "5555"; "ipproto"; "47"; "gue"] true start =
    (Val (-1), add_stderr start ("fou: cannot set ipproto and gue" ++ nl)) /\
  nlmsg (snd (fou_parse_opt linux_host
                ["port"; "5555"; "ipproto"; "47"; "gue"] true start)) =
    nlmsg start.
Proof.
  split; [reflexivity|].
  split; [discriminate|].
  split; [reflexivity|].
  apply (fou_parse_opt_rejects_ipproto_with_gue linux_host
           ["port"; "5555"; "ipproto"; "47"; "gue"] true start
           both_set_locals start);
    [reflexivity | discriminate | reflexivity].
Defined.

Lemma fou_parse_opt_requires_port_witness :
  port_keyword_consumed linux_host ["ipproto"; "udp"; "-6"] = false /\
  failed (fst (fou_parse_opt linux_host ["ipproto"; "udp"; "-6"] false start)) /\
  nlmsg (snd (fou_parse_opt linux_host ["ipproto"; "udp"; "-6"] false start)) =
    nlmsg start /\
  sent (snd (fou_parse_opt linux_host ["ipproto"; "udp"; "-6"] false start)) =
    sent start.
Proof.
  split; [reflexivity|].
  apply (fou_parse_opt_requires_port linux_host ["ipproto"; "udp"; "-6"] false start).
  reflexivity.
Defined.

(** The value 5 lies outside the enum range 0..4, and "state 5" is
    parsed with success: the attribute goes into the request. *)
Lemma bridge_slave_state_5_accepted :
  get_u8 linux_host "5" 0 = Some 5 /\
  ~ 0 <= 5 <= 4 /\
  bridge_slave_parse_opt linux_host ["state"; "5"] start =
    (Val 0,
     set_nlmsg start
       (mk_nlmsghdr 40 16 1 0 0 [mk_rtattr IFLA_BRPORT_STATE [5]])).
Proof.
  split; [reflexivity|].
  split; [lia | reflexivity].
Qed.

Lemma bridge_slave_parse_opt_state_witness :
  selects linux_host "state" "state" /\
  bridge_slave_parse_opt linux_host ["state"; "3"; "fdb_flush"] start =
    (addattr8 1024 IFLA_BRPORT_STATE 3 ;;
     bridge_slave_parse_opt linux_host ["fdb_flush"]) start.
Proof.
  split; [reflexivity|].
  apply (bridge_slave_parse_opt_state linux_host "state" "3" ["fdb_flush"] start).
  reflexivity.
Defined.

Lemma bitmask2str_fwd_mask_witness :
  0 <= 16421 <= 65535 /\
  _bitmask2str 16421 256 fwd_mask_tbl = Some "stp,lacp,0x20,lldp".
Proof.
  split; [lia|].
  change "stp,lacp,0x20,lldp" with (render_fwd_mask 16421).
  apply (bitmask2str_fwd_mask 16421). lia.
Defined.

Lemma print_portstate_name_or_number_witness :
  0 <= 7 <= 255 /\
  print_portstate 7 =
    [print_int PRINT_ANY (Some "state_index") (Some "state (%d) ") 7].
Proof.
  split; [lia|].
  apply (print_portstate_name_or_number 7). lia.
Defined.

Lemma fastleave_mcast_fast_leave_alias_witness :
  selects linux_host "fastleave" "fastleave" /\
  selects linux_host "mcast_fast_leave" "mcast_fast_leave" /\
  ("on" = "on" \/ "on" = "off") /\
  bridge_slave_parse_opt linux_host ["fastleave"; "on"] start =
    (addattr8 1024 IFLA_BRPORT_FAST_LEAVE 1 ;;
     bridge_slave_parse_opt linux_host []) start /\
  bridge_slave_parse_opt linux_host ["mcast_fast_leave"; "on"] start =
    bridge_slave_parse_opt linux_host ["fastleave"; "on"] start.
Proof.
  split; [reflexivity|].
  split; [reflexivity|].
  split; [left; reflexivity|].
  apply (fastleave_mcast_fast_leave_alias linux_host
           "fastleave" "mcast_fast_leave" "on" [] start);
    [reflexivity | reflexivity | left; reflexivity].
Defined.

Lemma fou_port_round_trip_witness :
  1 <= 5555 <= 65535 /\
  matches linux_host "port" "port" = 0 /\
  get_u16 linux_host "5555" 0 = Some 5555 /\
  snd (print_fou_mapping linux_host
         (mk_nlmsghdr 44 27 NLM_F_REQUEST FOU_CMD_DEL FOU_GENL_VERSION
            [mk_rtattr FOU_ATTR_PORT [21; 179];
             mk_rtattr FOU_ATTR_TYPE [FOU_ENCAP_DIRECT];
             mk_rtattr FOU_ATTR_AF [AF_INET]])) =
    [open_json_object None;
     print_uint PRINT_ANY (Some "port") (Some "port %u") 5555;
     print_string PRINT_JSON (Some "family") None (Some "inet");
     print_string PRINT_FP None (Some nl) None;
     close_json_object].
Proof.
  split; [lia|].
  split; [reflexivity|].
  split; [reflexivity|].
  apply (fou_port_round_trip linux_host "port" "5555" 5555 start);
    [lia | reflexivity | reflexivity].
Defined.

(** * Further properties *)

(** ** What a FOU command sends and what is displayed of it *)

Section FouMore.

Variable L : library.

(** X2. [fou_parse_opt] returns 0 exactly when the scan of the tokens ends with
    locals that pass the three checks after it: a port was given, an
    added port has "ipproto" or "gue", and not both were given.  The scan
    itself leaves the state as it was. *)
Theorem fou_parse_opt_succeeds_iff :
  forall argv adding s,
    fst (fou_parse_opt L argv adding s) = Val 0 <->
    exists l,
      fou_parse_opt_loop L argv fou_locals_init s = (Val (inl l), s) /\
      fou_locals_ok adding l.
Proof.
  intros argv adding s. unfold fou_parse_opt, bind, fou_locals_ok.
  destruct (fou_parse_opt_loop L argv fou_locals_init s) as [r s1] eqn:E.
  destruct (fou_parse_opt_loop_frame L argv _ _ _ _ E) as (_ & _ & Hv).
  destruct r as [[l | rc] | e].
  - destruct (Hv _ eq_refl) as [-> _]. unfold truthy.
    destruct (Z.eqb_spec (port_set l) 0) as [Hp | Hp]; cbn [negb].
    { split; [discriminate|]. intros (l' & Hl & Hp' & _).
      injection Hl as <-. contradiction. }
    destruct (Z.eqb_spec (ipproto_set l) 0) as [Hi | Hi]; cbn [negb andb];
      destruct (gue_set l) eqn:Hg; cbn [negb andb]; destruct adding.
    all: try (split; [discriminate|]; intros (l' & Hl & _ & Ha & Hb);
              injection Hl as <-; rewrite ?Hg in *;
              try (destruct Hb; congruence);
              destruct (Ha eq_refl); congruence).
    all: split; [intros _; exists l; rewrite Hg; repeat split;
                 solve [assumption | auto | intros; auto | discriminate]|].
    all: intros _; unfold addattr16, addattr8, with_nlmsg, ret;
      repeat match goal with
             | |- context [addattr_l ?n ?m ?t ?d] => destruct (addattr_l n m t d)
             end; reflexivity.
  - destruct (Hv _ eq_refl) as [_ [l' Hl']]. discriminate.
  - split; [discriminate|]. intros (l & Hl & _). discriminate.
Qed.

(** X3. The scan of the FOU options goes from left to right: when the scan
    of [a] gets through, the scan of [a ++ b] is the scan of [b] from the
    locals and the state that [a] left. *)
Theorem fou_parse_opt_loop_app :
  forall a b l s l' s',
    fou_parse_opt_loop L a l s = (Val (inl l'), s') ->
    fou_parse_opt_loop L (a ++ b) l s = fou_parse_opt_loop L b l' s'.
Proof.
  intros a b. induction a as [| a0 | a0 v rest IH1 IH2] using tokens_ind;
    intros l s l' s' H.
  - cbn in H. injection H as <- <-. reflexivity.
  - cbn [fou_parse_opt_loop] in H. cbn [app fou_parse_opt_loop].
    unfold truthy in *.
    destruct (matches L a0 "port" =? 0); cbn [negb] in *; [discriminate|].
    destruct (matches L a0 "ipproto" =? 0); cbn [negb] in *; [discriminate|].
    destruct (matches L a0 "gue" =? 0); cbn [negb] in *.
    { cbn in H. injection H as <- <-. destruct b; reflexivity. }
    destruct (matches L a0 "-6" =? 0); cbn [negb] in *.
    { cbn in H. injection H as <- <-. destruct b; reflexivity. }
    cbn in H. discriminate.
  - change ((a0 :: v :: rest) ++ b)%list with (a0 :: v :: (rest ++ b))%list.
    cbn [fou_parse_opt_loop] in H |- *. unfold truthy in *.
    destruct (matches L a0 "port" =? 0); cbn [negb] in *.
    { destruct (get_be16 L v 0) as [p|]; [destruct (p =? 0)|];
        try (cbn in H; discriminate). apply IH1. exact H. }
    destruct (matches L a0 "ipproto" =? 0); cbn [negb] in *.
    { destruct (getprotobyname L v) as [pp|]; [apply IH1; exact H|].
      destruct (get_u8 L v 0) as [p|]; [destruct (p =? 0)|];
        try (cbn in H; discriminate). apply IH1. exact H. }
    destruct (matches L a0 "gue" =? 0); cbn [negb] in *.
    { change (v :: (rest ++ b))%list with ((v :: rest) ++ b)%list.
      apply IH2. exact H. }
    destruct (matches L a0 "-6" =? 0); cbn [negb] in *.
    { change (v :: (rest ++ b))%list with ((v :: rest) ++ b)%list.
      apply IH2. exact H. }
    cbn in H. discriminate.
Qed.

(** The three or four appends of a successful parse on a fresh request
    all fit, and are the attributes of [fou_attrs]. *)
Lemma fou_parse_opt_builds :
  forall argv adding s cmd l,
    fou_parse_opt_loop L argv fou_locals_init (set_nlmsg s (fou_request L cmd)) =
      (Val (inl l), set_nlmsg s (fou_request L cmd)) ->
    fou_locals_ok adding l ->
    fou_parse_opt L argv adding (set_nlmsg s (fou_request L cmd)) =
      (Val 0, set_nlmsg s (fou_built L cmd l)).
Proof.
  intros argv adding s cmd l E (Hp & Ha & Hb).
  unfold fou_parse_opt, bind at 1. rewrite E. unfold truthy.
  apply Z.eqb_neq in Hp. rewrite Hp. cbn [negb].
  assert (Hlen : forall v, length (u16_bytes (little_endian L) v) = 2%nat)
    by (intros v; destruct (little_endian L); reflexivity).
  assert (Hrun : forall i,
    (addattr16 L 1024 FOU_ATTR_PORT (port l);;
     addattr8 1024 FOU_ATTR_TYPE
       (if gue_set l then FOU_ENCAP_GUE else FOU_ENCAP_DIRECT);;
     addattr8 1024 FOU_ATTR_AF (family l);;
     (if negb i
      then addattr8 1024 FOU_ATTR_IPPROTO (ipproto l);; ret tt
      else ret tt);;
     ret 0) (set_nlmsg s (fou_request L cmd)) =
    (Val 0,
     set_nlmsg s
       (mk_nlmsghdr (if negb i then 52 else 44) (genl_family L) NLM_F_REQUEST cmd
          FOU_GENL_VERSION
          ([mk_rtattr FOU_ATTR_PORT (u16_bytes (little_endian L) (port l));
            mk_rtattr FOU_ATTR_TYPE
              [if gue_set l then FOU_ENCAP_GUE else FOU_ENCAP_DIRECT];
            mk_rtattr FOU_ATTR_AF [Z.land (family l) 255]] ++
           (if negb i
            then [mk_rtattr FOU_ATTR_IPPROTO [Z.land (ipproto l) 255]]
            else []))))).
  { intros i.
    unfold bind, addattr16, addattr8, with_nlmsg, addattr_l, ret, set_nlmsg,
      fou_request.
    cbn [nlmsg stderr sent nlmsg_len nlmsg_type nlmsg_flags genl_cmd
         genl_version attrs length].
    rewrite Hlen.
    destruct (gue_set l), i; cbn; reflexivity. }
  unfold fou_built, fou_attrs, truthy.
  destruct (Z.eqb_spec (ipproto_set l) 0) as [Hi | Hi]; cbn [negb andb].
  - destruct (gue_set l) eqn:Hg; cbn [negb andb].
    + apply (Hrun true).
    + destruct adding; [destruct (Ha eq_refl); congruence|]. apply (Hrun true).
  - destruct (gue_set l) eqn:Hg; [destruct Hb; congruence|]. cbn [negb andb].
    apply (Hrun false).
Qed.

(** X4. When the options of "ip fou add" parse, [do_add] sends one message:
    the FOU_CMD_ADD request with FOU_ATTR_PORT, FOU_ATTR_TYPE, FOU_ATTR_AF
    and, when "ipproto" was given, FOU_ATTR_IPPROTO, in this order, and
    with a length that counts eight bytes for each.  It returns -2 when
    [rtnl_talk] fails on that message, and 0 otherwise. *)
Theorem do_add_sends_what_was_parsed :
  forall argv s l,
    fou_parse_opt_loop L argv fou_locals_init (set_nlmsg s (fou_request L FOU_CMD_ADD)) =
      (Val (inl l), set_nlmsg s (fou_request L FOU_CMD_ADD)) ->
    fou_locals_ok true l ->
    do_add L argv s =
      (Val (if rtnl_talk_result L (fou_built L FOU_CMD_ADD l) <? 0 then -2 else 0),
       mk_state (fou_built L FOU_CMD_ADD l) (stderr s)
         (sent s ++ [fou_built L FOU_CMD_ADD l])%list).
Proof.
  intros argv s l E Hok. unfold do_add, bind at 1, FOU_REQUEST.
  change (mk_state _ (stderr s) (sent s)) with (set_nlmsg s (fou_request L FOU_CMD_ADD)).
  unfold bind at 1. rewrite (fou_parse_opt_builds argv true s FOU_CMD_ADD l E Hok).
  unfold bind, rtnl_talk, ret. cbn [nlmsg stderr sent set_nlmsg].
  destruct (_ <? 0); reflexivity.
Qed.

(** X5. When the options of "ip fou del" parse, [do_del] sends one message:
    the FOU_CMD_DEL request with the attributes of the locals; a port
    alone is enough.  It returns -2 when [rtnl_talk] fails on that
    message, and 0 otherwise. *)
Theorem do_del_sends_what_was_parsed :
  forall argv s l,
    fou_parse_opt_loop L argv fou_locals_init (set_nlmsg s (fou_request L FOU_CMD_DEL)) =
      (Val (inl l), set_nlmsg s (fou_request L FOU_CMD_DEL)) ->
    fou_locals_ok false l ->
    do_del L argv s =
      (Val (if rtnl_talk_result L (fou_built L FOU_CMD_DEL l) <? 0 then -2 else 0),
       mk_state (fou_built L FOU_CMD_DEL l) (stderr s)
         (sent s ++ [fou_built L FOU_CMD_DEL l])%list).
Proof.
  intros argv s l E Hok. unfold do_del, bind at 1, FOU_REQUEST.
  change (mk_state _ (stderr s) (sent s)) with (set_nlmsg s (fou_request L FOU_CMD_DEL)).
  unfold bind at 1. rewrite (fou_parse_opt_builds argv false s FOU_CMD_DEL l E Hok).
  unfold bind, rtnl_talk, ret. cbn [nlmsg stderr sent set_nlmsg].
  destruct (_ <? 0); reflexivity.
Qed.

(** X6. [print_fou_mapping] on the request that a parse built prints what was
    given: the port in host order, "gue" or the protocol number, the
    name of the family, " -6" for AF_INET6, and the end of the line. *)
Theorem print_fou_mapping_of_built :
  forall cmd l p,
    0 <= p < 65536 ->
    port l = htons (little_endian L) p ->
    family l = AF_INET \/ family l = AF_INET6 ->
    print_fou_mapping L (fou_built L cmd l) =
      (0,
       [open_json_object None;
        print_uint PRINT_ANY (Some "port") (Some "port %u") p] ++
       (if gue_set l then [print_null PRINT_ANY (Some "gue") (Some " gue") None]
        else if truthy (ipproto_set l)
             then [print_uint PRINT_ANY (Some "ipproto") (Some " ipproto %u")
                     (Z.land (ipproto l) 255)]
             else []) ++
       [print_string PRINT_JSON (Some "family") None
          (Some (family_name L (family l)))] ++
       (if family l =? AF_INET6
        then [print_string PRINT_FP None (Some " -6") None] else []) ++
       [print_string PRINT_FP None (Some nl) None; close_json_object])%list.
Proof.
  intros cmd l p Hp Hport Hfam.
  destruct (port_bytes_round_trip (little_endian L) FOU_ATTR_PORT p Hp)
    as [Hrt Hbytes].
  unfold print_fou_mapping, fou_built, fou_attrs.
  cbn [nlmsg_type nlmsg_len attrs]. rewrite Z.eqb_refl. cbn [negb].
  rewrite Hport, Hbytes. rewrite Hbytes in Hrt.
  revert Hrt. generalize (Z.shiftr p 8) (Z.land p 255). intros hi lo Hrt.
  generalize (Z.land (ipproto l) 255). intros proto.
  destruct Hfam as [-> | ->];
    destruct (gue_set l), (truthy (ipproto_set l));
    cbn -[ntohs rta_getattr_u16]; rewrite Hrt; reflexivity.
Qed.

(** X7. "ipproto" asks [getprotobyname] first.  A name it knows wins, also
    when its number is 0 ("ip"): the request goes out with the low byte
    of that number.  The text "0" that only [get_u8] reads is refused
    with "invalid ipproto". *)
Theorem ipproto_name_before_number :
  forall kp tp p ki v s,
    matches L kp "port" = 0 ->
    get_u16 L tp 0 = Some p ->
    1 <= p <= 65535 ->
    matches L ki "port" <> 0 ->
    matches L ki "ipproto" = 0 ->
    (forall q,
        getprotobyname L v = Some q ->
        sent (snd (do_add L [kp; tp; ki; v] s)) =
          (sent s ++
           [fou_built L FOU_CMD_ADD
              (mk_fou_locals (htons (little_endian L) p) 1 (Z.land q 255)
                 false 1 AF_INET)])%list) /\
    (getprotobyname L v = None ->
     get_u8 L v 0 = Some 0 ->
     do_add L [kp; tp; ki; v] s =
       (Stopped (Invarg "invalid ipproto" v),
        set_nlmsg s (fou_request L FOU_CMD_ADD))).
Proof.
  intros kp tp p ki v s Hkp Htp Hp Hki1 Hki2.
  apply Z.eqb_neq in Hki1.
  pose proof (htons_nonzero (little_endian L) p Hp) as Hnz.
  apply Z.eqb_neq in Hnz.
  split.
  - intros q Hq.
    set (l := mk_fou_locals (htons (little_endian L) p) 1 (Z.land q 255)
                false 1 AF_INET).
    assert (E : fou_parse_opt_loop L [kp; tp; ki; v] fou_locals_init
                  (set_nlmsg s (fou_request L FOU_CMD_ADD)) =
                (Val (inl l), set_nlmsg s (fou_request L FOU_CMD_ADD))).
    { cbn [fou_parse_opt_loop]. unfold truthy, get_be16.
      rewrite Hkp, Htp, Hnz, Hki1, Hki2, Hq. reflexivity. }
    assert (Hok : fou_locals_ok true l).
    { unfold fou_locals_ok. cbn.
      repeat split; [lia | intros _; left; lia | now right]. }
    unfold do_add, bind at 1, FOU_REQUEST.
    change (mk_state _ (stderr s) (sent s))
      with (set_nlmsg s (fou_request L FOU_CMD_ADD)).
    unfold bind at 1.
    rewrite (fou_parse_opt_builds [kp; tp; ki; v] true s FOU_CMD_ADD l E Hok).
    unfold bind, rtnl_talk, ret. cbn [nlmsg stderr sent set_nlmsg].
    destruct (_ <? 0); reflexivity.
  - intros Hq Hz. unfold do_add, bind at 1, FOU_REQUEST.
    change (mk_state _ (stderr s) (sent s)) with (set_nlmsg s (fou_request L FOU_CMD_ADD)).
    unfold bind at 1, fou_parse_opt, bind at 1. cbn [fou_parse_opt_loop].
    unfold truthy, get_be16.
    rewrite Hkp, Htp, Hnz, Hki1, Hki2, Hq, Hz. reflexivity.
Qed.

Ltac scan_calls :=
  repeat match goal with
         | H : printed _ _ |- _ => destruct H as (?c & ?Hin & ?Hk)
         | H : In _ (_ :: _) |- _ => destruct H as [<- | H]
         | H : In _ [] |- _ => destruct H
         | H : call_key _ = Some _ |- _ => cbn in H; try discriminate H
         end.

(** Split on the two checks and on the four slots of the table. *)
Ltac open_display n tb :=
  unfold print_fou_mapping, displayed;
  destruct (nlmsg_type n =? genl_family L); cbn [negb andb snd];
  [ destruct (Z.leb_spec 0 (nlmsg_len n - NLMSG_LENGTH GENL_HDRLEN)) as [Hge | Hlt];
    [ destruct (Z.ltb_spec (nlmsg_len n - NLMSG_LENGTH GENL_HDRLEN) 0) as [Hx | Hx]; [lia|];
      fold tb;
      change (match tb FOU_ATTR_TYPE with
              | Some a => rta_getattr_u8 a =? FOU_ENCAP_GUE
              | None => false
              end) with (is_gue tb);
      destruct (tb FOU_ATTR_PORT), (is_gue tb), (tb FOU_ATTR_IPPROTO),
        (tb FOU_ATTR_AF) as [af|];
      try destruct (Z.eqb_spec (rta_getattr_u8 af) AF_INET6) as [Haf | Haf];
      cbn [app snd]
    | destruct (Z.ltb_spec (nlmsg_len n - NLMSG_LENGTH GENL_HDRLEN) 0) as [Hx | Hx]; [|lia];
      cbn [snd] ]
  | ].

(** X8. [print_fou_mapping] prints the key "port" exactly when the message is
    displayed and holds FOU_ATTR_PORT, the key "family" exactly when it
    is displayed and holds FOU_ATTR_AF, and " -6" exactly when that
    attribute is AF_INET6. *)
Theorem print_fou_mapping_port_and_family :
  forall n,
    let tb := parse_rtattr FOU_ATTR_MAX (attrs n)
                (nlmsg_len n - NLMSG_LENGTH GENL_HDRLEN) in
    let out := snd (print_fou_mapping L n) in
    (printed "port" out <-> displayed L n = true /\ tb FOU_ATTR_PORT <> None) /\
    (printed "family" out <-> displayed L n = true /\ tb FOU_ATTR_AF <> None) /\
    (In (print_string PRINT_FP None (Some " -6") None) out <->
       displayed L n = true /\
       exists a, tb FOU_ATTR_AF = Some a /\ rta_getattr_u8 a = AF_INET6).
Proof.
  intros n tb out. subst out.
  split; [|split].
  - open_display n tb; (split; [intros H | intros [H0 H]]);
      try discriminate H0;
      try (exfalso; scan_calls; fail);
      try (split; [reflexivity | discriminate]);
      try (apply printed_existsb; reflexivity);
      exfalso; apply H; reflexivity.
  - open_display n tb; (split; [intros H | intros [H0 H]]);
      try discriminate H0;
      try (exfalso; scan_calls; fail);
      try (split; [reflexivity | discriminate]);
      try (apply printed_existsb; reflexivity);
      exfalso; apply H; reflexivity.
  - open_display n tb; (split; [intros H | intros [H0 (a & Ha & Hv)]]);
      try discriminate H0; try discriminate Ha;
      try (injection Ha as <-; contradiction);
      try (cbn [In]; tauto);
      try (split; [reflexivity | eexists; split; [reflexivity | assumption]]);
      exfalso; cbn [In] in H; intuition discriminate.
Qed.

End FouMore.

(** ** Composition and framing of the option parsers *)

Lemma bind_val_inv {A B} (m : M A) (k : A -> M B) s r s' :
  bind m k s = (Val r, s') ->
  exists a s2, m s = (Val a, s2) /\ k a s2 = (Val r, s').
Proof.
  unfold bind. destruct (m s) as [[a | e] s2]; intros H; [eauto | discriminate].
Qed.

Lemma bind_val {A B} (m : M A) (k : A -> M B) s a s2 :
  m s = (Val a, s2) -> bind m k s = k a s2.
Proof. unfold bind. intros ->. reflexivity. Qed.

Section BridgeMore.

Variable L : library.

(** One branch of the chain, with the hypothesis that the scan of the
    first list returned 0 in [H]. *)
Ltac app_branch H IH1 IH2 :=
  first
    [ discriminate H
    | match type of H with
      | match ?g with Some _ => _ | None => _ end _ = _ =>
          destruct g; [|discriminate H]
      | _ => idtac
      end;
      apply bind_val_inv in H;
      let x := fresh "x" in
      let s2 := fresh "s2" in
      let Hm := fresh "Hm" in
      let Hk := fresh "Hk" in
      destruct H as (x & s2 & Hm & Hk);
      rewrite (bind_val _ _ _ _ _ Hm);
      try (destruct (truthy x); [discriminate Hk|]);
      first [ apply IH1; exact Hk
            | apply IH2; exact Hk
            | injection Hk as <-; reflexivity
            | apply bind_val_inv in Hk;
              destruct Hk as (? & ? & _ & Hk); discriminate Hk ] ].

Lemma bridge_slave_parse_opt_app_ok :
  forall a b s s1,
    bridge_slave_parse_opt L a s = (Val 0, s1) ->
    bridge_slave_parse_opt L (a ++ b) s = bridge_slave_parse_opt L b s1.
Proof.
  intros a b. induction a as [| a0 | a0 v rest IH1 IH2] using tokens_ind;
    intros s s1 H.
  - cbn in H. injection H as <-. reflexivity.
  - cbn [app]. cbn [bridge_slave_parse_opt] in H |- *.
    unfold incomplete_command, leave in H.
    repeat match type of H with
           | context [matches L a0 ?k =? 0] =>
               destruct (matches L a0 k =? 0);
               [ app_branch H IH1 IH2 | ]
           end.
    app_branch H IH1 IH2.
  - change ((a0 :: v :: rest) ++ b)%list with (a0 :: (v :: rest) ++ b)%list.
    cbn [bridge_slave_parse_opt] in H.
    change (bridge_slave_parse_opt L (a0 :: (v :: rest) ++ b))
      with (bridge_slave_parse_opt L (a0 :: v :: (rest ++ b))).
    cbn [bridge_slave_parse_opt].
    change (v :: rest ++ b)%list with ((v :: rest) ++ b)%list.
    repeat match type of H with
           | context [matches L a0 ?k =? 0] =>
               destruct (matches L a0 k =? 0);
               [ app_branch H IH1 IH2 | ]
           end.
    app_branch H IH1 IH2.
Qed.

Lemma bind_stop_step {A B} (m : M A) (k k' : A -> M B) s (r : res B) s1 :
  bind m k s = (r, s1) ->
  (forall a s2, k a s2 = (r, s1) -> k' a s2 = (r, s1)) ->
  bind m k' s = (r, s1).
Proof.
  unfold bind. destruct (m s) as [[a | e] s2]; intros H Hk; [apply Hk|]; exact H.
Qed.

(** One branch of the chain, with the outcome of the scan of the first
    list in [H]: an outcome other than 0 and other than running out of
    tokens. *)
Ltac stop_branch H Hr0 Hri IH1 IH2 :=
  try match type of H with
      | match ?g with Some _ => _ | None => _ end _ = _ => destruct g
      end;
  lazymatch type of H with
  | (Stopped IncompleteCommand, _) = _ =>
      exfalso; injection H as <- <-; now apply Hri
  | ret 0 _ = _ => exfalso; injection H as <- <-; now apply Hr0
  | invarg _ _ _ = _ => exact H
  | bind _ _ _ = _ =>
      apply (bind_stop_step _ _ _ _ _ _ H);
      let a := fresh "a" in
      let s2 := fresh "s2" in
      let Hk := fresh "Hk" in
      intros a s2 Hk;
      try match type of Hk with
          | (if ?c then _ else _) _ = _ => destruct c
          end;
      lazymatch type of Hk with
      | bridge_slave_parse_opt _ (_ :: _) _ = _ => exact (IH2 _ _ _ Hk Hr0 Hri)
      | bridge_slave_parse_opt _ [] _ = _ =>
          exfalso; injection Hk as <- <-; now apply Hr0
      | bridge_slave_parse_opt _ _ _ = _ => exact (IH1 _ _ _ Hk Hr0 Hri)
      | _ => exact Hk
      end
  end.

Lemma bridge_slave_parse_opt_app_stop :
  forall a b s r s1,
    bridge_slave_parse_opt L a s = (r, s1) ->
    r <> Val 0 ->
    r <> Stopped IncompleteCommand ->
    bridge_slave_parse_opt L (a ++ b) s = (r, s1).
Proof.
  intros a b. induction a as [| a0 | a0 v rest IH1 IH2] using tokens_ind;
    intros s r s1 H Hr0 Hri.
  - cbn in H. injection H as <- <-. contradiction.
  - cbn [app]. remember (@nil string) as tl eqn:Htl.
    cbn [bridge_slave_parse_opt] in H |- *. subst tl. cbv beta iota in H.
    unfold incomplete_command, leave in H.
    repeat match type of H with
           | context [matches L a0 ?k =? 0] =>
               destruct (matches L a0 k =? 0);
               [ stop_branch H Hr0 Hri IH1 IH2 | ]
           end.
    stop_branch H Hr0 Hri IH1 IH2.
  - change ((a0 :: v :: rest) ++ b)%list with (a0 :: ((v :: rest) ++ b))%list.
    remember (v :: rest) as tl eqn:Htl.
    remember (tl ++ b)%list as tlb eqn:Htlb.
    cbn [bridge_slave_parse_opt] in H |- *.
    subst tlb tl. cbn [app]. cbv beta iota in H |- *.
    repeat match type of H with
           | context [matches L a0 ?k =? 0] =>
               destruct (matches L a0 k =? 0);
               [ stop_branch H Hr0 Hri IH1 IH2 | ]
           end.
    stop_branch H Hr0 Hri IH1 IH2.
Qed.

(** X9. The bridge-port options are parsed from left to right.  When [a]
    parses, [a ++ b] goes on with [b] from the state that [a] left.  When
    [a] fails other than by a missing value, [a ++ b] fails the same way
    in the same state, whatever [b] is. *)
Theorem bridge_slave_parse_opt_app :
  forall a b s r s1,
    bridge_slave_parse_opt L a s = (r, s1) ->
    (r = Val 0 ->
     bridge_slave_parse_opt L (a ++ b) s = bridge_slave_parse_opt L b s1) /\
    (r <> Val 0 -> r <> Stopped IncompleteCommand ->
     bridge_slave_parse_opt L (a ++ b) s = (r, s1)).
Proof.
  intros a b s r s1 H. split.
  - intros ->. apply bridge_slave_parse_opt_app_ok. exact H.
  - intros Hr0 Hri. apply bridge_slave_parse_opt_app_stop; assumption.
Qed.

End BridgeMore.

(** ** Alignment *)

Lemma align_4 x : Z.land (x + 3) (Z.lnot 3) = 4 * ((x + 3) / 4).
Proof.
  rewrite <- Z.ldiff_land. change 3 with (Z.ones 2) at 2.
  rewrite Z.ldiff_ones_r by lia.
  rewrite Z.shiftl_mul_pow2, Z.shiftr_div_pow2 by lia.
  change (2 ^ 2) with 4. lia.
Qed.

Lemma RTA_ALIGN_mod x : RTA_ALIGN x mod 4 = 0.
Proof.
  unfold RTA_ALIGN. rewrite align_4, Z.mul_comm. apply Z.mod_mul. lia.
Qed.

Lemma NLMSG_ALIGN_aligned x : x mod 4 = 0 -> NLMSG_ALIGN x = x.
Proof.
  intros H. unfold NLMSG_ALIGN. rewrite align_4.
  pose proof (Z.div_mod x 4 ltac:(lia)) as Hx. rewrite H in Hx.
  replace (x + 3) with (3 + (x / 4) * 4) by lia.
  rewrite Z.div_add by lia. change (3 / 4) with 0. lia.
Qed.

Lemma attrs_size_app a b : attrs_size (a ++ b) = attrs_size a + attrs_size b.
Proof.
  unfold attrs_size. induction a as [|x a IH]; cbn [app fold_right]; [lia|].
  rewrite IH. lia.
Qed.

Lemma attrs_size_mod rtas : attrs_size rtas mod 4 = 0.
Proof.
  induction rtas as [|a rtas IH]; [reflexivity|].
  cbn [attrs_size fold_right]. fold (attrs_size rtas).
  rewrite Z.add_mod, RTA_ALIGN_mod, IH by lia. reflexivity.
Qed.

Lemma extends_refl s : extends s s.
Proof.
  unfold extends. repeat split; try reflexivity.
  exists []. rewrite app_nil_r. cbn. repeat split; [lia | auto].
Qed.

Lemma extends_trans s1 s2 s3 : extends s1 s2 -> extends s2 s3 -> extends s1 s3.
Proof.
  intros (Ha & Hb & Hc & Hd & He & x1 & Hx1 & Hl1 & Hc1)
         (Ha' & Hb' & Hc' & Hd' & He' & x2 & Hx2 & Hl2 & Hc2).
  unfold extends. repeat split; try congruence.
  exists (x1 ++ x2)%list. split; [|split].
  - rewrite Hx2, Hx1. now rewrite app_assoc.
  - intros H4. rewrite attrs_size_app.
    assert (H2 : nlmsg_len (nlmsg s2) mod 4 = 0).
    { rewrite (Hl1 H4). rewrite Z.add_mod, H4, attrs_size_mod by lia. reflexivity. }
    rewrite (Hl2 H2), (Hl1 H4). lia.
  - auto.
Qed.

Lemma extends_addattr_l s type data :
  extends s (set_nlmsg s (snd (addattr_l (nlmsg s) 1024 type data))).
Proof.
  unfold addattr_l.
  destruct (Z.gtb_spec (NLMSG_ALIGN (nlmsg_len (nlmsg s)) +
                        RTA_ALIGN (RTA_LENGTH (Z.of_nat (length data)))) 1024)
    as [Hgt | Hle]; cbn [snd].
  - destruct s as [n t w]. apply extends_refl.
  - unfold extends, set_nlmsg. cbn [nlmsg sent nlmsg_type nlmsg_flags genl_cmd
                                    genl_version attrs nlmsg_len].
    repeat split; try reflexivity.
    exists [mk_rtattr type data]. split; [reflexivity|]. split; [|intros _; exact Hle].
    intros H4. rewrite (NLMSG_ALIGN_aligned _ H4). cbn [attrs_size fold_right].
    unfold rta_len. cbn [rta_data]. lia.
Qed.

Lemma keeps_ret {A} (a : A) : keeps (ret a).
Proof. intros s. apply extends_refl. Qed.

Lemma keeps_leave {A} e : keeps (@leave A e).
Proof. intros s. apply extends_refl. Qed.

Lemma keeps_fprintf_stderr text : keeps (fprintf_stderr text).
Proof.
  intros s. unfold fprintf_stderr, extends. cbn.
  repeat split; try reflexivity. exists []. rewrite app_nil_r. cbn.
  repeat split; [lia | auto].
Qed.

Lemma keeps_with_nlmsg type data :
  keeps (with_nlmsg (fun n => addattr_l n 1024 type data)).
Proof.
  intros s. unfold with_nlmsg.
  pose proof (extends_addattr_l s type data) as H.
  destruct (addattr_l (nlmsg s) 1024 type data) as [rc n']. exact H.
Qed.

Lemma keeps_bind {A B} (m : M A) (k : A -> M B) :
  keeps m -> (forall a, keeps (k a)) -> keeps (bind m k).
Proof.
  intros Hm Hk s. unfold bind. specialize (Hm s).
  destruct (m s) as [[a | e] s2]; cbn [snd] in Hm |- *; [|exact Hm].
  eapply extends_trans; [exact Hm | apply Hk].
Qed.

Section Keeps.

Variable L : library.

Ltac keeps_step :=
  first [ apply keeps_ret
        | apply keeps_leave
        | apply keeps_fprintf_stderr
        | apply keeps_with_nlmsg
        | apply keeps_bind; [|intros ?]
        | assumption ].

Lemma keeps_on_off name v type : keeps (bridge_slave_parse_on_off name v type).
Proof.
  unfold bridge_slave_parse_on_off, addattr8, invarg.
  destruct (String.eqb v "on"); [repeat keeps_step|].
  destruct (String.eqb v "off"); repeat keeps_step.
Qed.

Ltac keeps_branch :=
  unfold addattr, addattr8, addattr16, addattr32, invarg, incomplete_command,
    explain;
  repeat first [ keeps_step
               | apply keeps_on_off
               | match goal with
                 | |- keeps (match ?g with Some _ => _ | None => _ end) => destruct g
                 | |- keeps (if ?c then _ else _) => destruct c
                 end ].

(** X10. [bridge_slave_parse_opt] sends nothing and keeps the envelope of the
    message.  It only adds attributes at the end; on an aligned message
    the length field grows by their aligned sizes, and it does not pass
    1024. *)
Theorem bridge_slave_parse_opt_keeps :
  forall argv, keeps (bridge_slave_parse_opt L argv).
Proof.
  induction argv as [| a0 | a0 v rest IH1 IH2] using tokens_ind.
  - apply keeps_ret.
  - pose proof (keeps_ret (A := Z) 0) as IH0.
    change (ret 0) with (bridge_slave_parse_opt L []) in IH0.
    cbn [bridge_slave_parse_opt].
    repeat match goal with
           | |- keeps (if matches L a0 ?k =? 0 then _ else _) =>
               destruct (matches L a0 k =? 0); [keeps_branch|]
           end.
    keeps_branch.
  - cbn [bridge_slave_parse_opt].
    repeat match goal with
           | |- keeps (if matches L a0 ?k =? 0 then _ else _) =>
               destruct (matches L a0 k =? 0); [keeps_branch|]
           end.
    keeps_branch.
Qed.

(** X11. [fou_parse_opt] sends nothing and keeps the envelope of the request.
    It only adds attributes at the end; on an aligned request the length
    field grows by their aligned sizes, and it does not pass 1024. *)
Theorem fou_parse_opt_keeps :
  forall argv adding, keeps (fou_parse_opt L argv adding).
Proof.
  intros argv adding s. unfold fou_parse_opt, bind at 1.
  destruct (fou_parse_opt_loop L argv fou_locals_init s) as [r s1] eqn:E.
  destruct (fou_parse_opt_loop_frame L argv _ _ _ _ E) as (Hn & Hs & Hv).
  assert (H1 : extends s s1).
  { unfold extends. rewrite Hn, Hs. repeat split; try reflexivity.
    exists []. rewrite app_nil_r. cbn. repeat split; [lia | auto]. }
  destruct r as [[l | rc] | e]; cbn [snd]; [| exact H1 | exact H1].
  eapply extends_trans; [exact H1|].
  match goal with |- extends s1 (snd (?m s1)) => assert (Hk : keeps m) end.
  { unfold addattr8, addattr16.
    repeat first [ keeps_step
                 | match goal with
                   | |- keeps (if ?c then _ else _) => destruct c
                   end ]. }
  apply Hk.
Qed.

End Keeps.

(** ** The display of a bridge port *)

(** ** [_bitmask2str] with any table and any buffer *)

Lemma land_u16_range mask : 0 <= Z.land mask 65535 <= 65535.
Proof.
  change 65535 with (Z.ones 16) at 1 2. rewrite Z.land_ones by lia.
  pose proof (Z.mod_pos_bound mask (2 ^ 16) ltac:(lia)). change (2 ^ 16) with 65536 in *.
  lia.
Qed.

Lemma loop_text_any_table tbl mask :
  0 <= mask <= 65535 ->
  loop_text 16 mask 0 tbl =
    terminated (map (fun j => text_of tbl (Z.of_nat j)) (set_bits mask)).
Proof.
  intros Hr.
  assert (Hb : 0 <= mask < 2 ^ Z.of_nat 16)
    by (change (2 ^ Z.of_nat 16) with 65536; lia).
  pose proof (loop_text_set_bits tbl 16 mask 0 Hb) as Htext.
  change (Z.of_nat 0) with 0 in Htext. rewrite Htext.
  unfold set_bits.
  assert (Hsame :
    filter (fun j => Z.testbit mask (Z.of_nat j - 0)) (seq 0 16) =
    filter (fun i => Z.testbit mask (Z.of_nat i)) (seq 0 16)).
  { apply filter_ext. intros j. now rewrite Z.sub_0_r. }
  rewrite Hsame. reflexivity.
Qed.

Lemma text_budget_lower tbl fuel :
  forall i, Z.of_nat fuel <= text_budget tbl fuel i.
Proof.
  induction fuel as [|fuel IH]; intros i; cbn [text_budget]; [cbn; lia|].
  specialize (IH (i + 1)).
  assert (1 <= strlen (bit_text tbl i)).
  { unfold bit_text. destruct (tbl i) as [name|]; rewrite ?strlen_append.
    - pose proof (strlen_nonneg name). change (strlen ",") with 1. lia.
    - pose proof (strlen_nonneg (fmt_x (Z.shiftl 1 i))).
      change (strlen ",") with 1. change (strlen "0x") with 2. lia. }
  lia.
Qed.

(** With more room than the table can ask for, [_bitmask2str] leaves the
    rendering in the buffer. *)
Lemma bitmask2str_room tbl mask dst_size :
  0 <= mask <= 65535 ->
  text_budget tbl 16 0 < dst_size ->
  _bitmask2str mask dst_size tbl = Some (render_mask tbl mask).
Proof.
  intros Hr Hsize. unfold _bitmask2str.
  assert (Hm : Z.land mask 65535 = mask).
  { change 65535 with (Z.ones 16). rewrite Z.land_ones by lia.
    apply Z.mod_small. lia. }
  rewrite Hm.
  pose proof (loop_text_budget tbl 16 mask 0) as Hbudget.
  pose proof (text_budget_lower tbl 16 0) as Hnn.
  change (Z.of_nat 16) with 16 in Hnn.
  pose proof (_bitmask2str_loop_room tbl dst_size 16 mask 0 "") as Hloop.
  change (strlen "") with 0 in Hloop. cbn [String.append] in Hloop.
  rewrite Hloop; [|change (2 ^ Z.of_nat 16) with 65536; lia | lia].
  clear Hloop. rewrite (loop_text_any_table tbl mask Hr) in *.
  unfold render_mask.
  destruct (set_bits mask) as [|b bits].
  - cbn [map terminated strlen String.length Z.of_nat Z.add Z.eqb].
    unfold snprintf.
    destruct (Z.ltb_spec dst_size 0); [lia|].
    destruct (Z.eqb_spec dst_size 0); [lia|].
    change (0 <=? strlen "") with true. cbv iota.
    change (substring 0 (Z.to_nat 0) "") with "". cbn [String.append].
    f_equal. apply substring_all. cbn [String.length]. lia.
  - cbn [map] in *. set (t := text_of tbl (Z.of_nat b)) in *.
    set (ts := map (fun j => text_of tbl (Z.of_nat j)) bits) in *.
    rewrite Z.add_0_l.
    assert (Hlen : strlen (terminated (t :: ts)) =
                   Z.of_nat (String.length (terminated (t :: ts)))) by reflexivity.
    pose proof (terminated_length t ts) as Hs.
    destruct (Z.eqb_spec (strlen (terminated (t :: ts))) 0); [lia|].
    destruct (Z.ltb_spec (strlen (terminated (t :: ts)) - 1) dst_size); [|lia].
    f_equal. rewrite <- terminated_drop_last. f_equal. lia.
Qed.

Lemma render_mask_fwd mask : render_mask fwd_mask_tbl mask = render_fwd_mask mask.
Proof.
  unfold render_mask, render_fwd_mask.
  assert (Hall : Forall (fun j => (j < 16)%nat) (set_bits mask)).
  { apply Forall_forall. intros j Hj. unfold set_bits in Hj.
    apply filter_In in Hj. destruct Hj as [Hj _]. apply in_seq in Hj. lia. }
  destruct (set_bits mask) as [|b bits]; [reflexivity|].
  rewrite (fwd_mask_texts _ Hall). reflexivity.
Qed.

Lemma bitmask2str_u16 mask dst_size tbl :
  _bitmask2str mask dst_size tbl = _bitmask2str (Z.land mask 65535) dst_size tbl.
Proof.
  unfold _bitmask2str. rewrite <- Z.land_assoc.
  change (Z.land 65535 65535) with 65535. reflexivity.
Qed.

(** X12. With the table [fwd_mask_tbl], 88 bytes are enough for every mask:
    [_bitmask2str] stores no byte outside the buffer and leaves the
    names of the set bits of the low 16 bits, joined by commas. *)
Theorem bitmask2str_fwd_mask_any_buffer :
  forall mask dst_size,
    88 <= dst_size ->
    _bitmask2str mask dst_size fwd_mask_tbl =
      Some (render_fwd_mask (Z.land mask 65535)).
Proof.
  intros mask dst_size Hsize.
  rewrite bitmask2str_u16, <- render_mask_fwd.
  apply bitmask2str_room; [apply land_u16_range|].
  change (text_budget fwd_mask_tbl 16 0) with 87. lia.
Qed.

Lemma in_by_eqb k l : existsb (String.eqb k) l = true -> In k l.
Proof.
  intros H. apply existsb_exists in H. destruct H as (x & Hx & Hk).
  apply String.eqb_eq in Hk. now subst.
Qed.

Section DisplayFacts.

Variable L : library.
Variable E : display_env.

Lemma print_opt_some tb :
  exists mid,
    bridge_slave_print_opt L E (Some tb) =
      Some (print_opt_head L E tb ++ mid ++ print_opt_tail E tb)%list /\
    mid =
      match tb IFLA_BRPORT_GROUP_FWD_MASK with
      | None => []
      | Some a =>
          [print_0xhex PRINT_ANY (Some "group_fwd_mask")
             (Some "group_fwd_mask 0x%x ") (rta_getattr_u16 (little_endian L) a);
           sink (print_string PRINT_ANY (Some "group_fwd_mask_str")
                   (Some "group_fwd_mask_str %s ")
                   (Some (render_fwd_mask
                            (Z.land (rta_getattr_u16 (little_endian L) a) 65535))))]
      end.
Proof.
  unfold bridge_slave_print_opt.
  destruct (tb IFLA_BRPORT_GROUP_FWD_MASK) as [a|].
  - rewrite bitmask2str_u16, (bitmask2str_room fwd_mask_tbl);
      [|apply land_u16_range | change (text_budget fwd_mask_tbl 16 0) with 87; lia].
    rewrite render_mask_fwd. eexists. split; reflexivity.
  - exists []. split; reflexivity.
Qed.

Lemma shown_head tb c : In c (print_opt_head L E tb) -> shown L E tb c.
Proof.
  intros H. unfold shown. destruct (print_opt_some tb) as (mid & -> & _).
  eexists. split; [reflexivity|]. apply in_or_app. now left.
Qed.

Lemma shown_tail tb c : In c (print_opt_tail E tb) -> shown L E tb c.
Proof.
  intros H. unfold shown. destruct (print_opt_some tb) as (mid & -> & _).
  eexists. split; [reflexivity|]. apply in_or_app. right. apply in_or_app. now right.
Qed.

Lemma in_present slot (calls : rtattr -> list display_call) a c :
  slot = Some a -> In c (calls a) -> In c (present slot calls).
Proof. intros -> H. exact H. Qed.

(** Find the field of [print_opt_head] that [H : tb i = Some a] fills. *)
Tactic Notation "find_field" hyp(H) integer(n) :=
  unfold print_opt_head; apply in_concat; eexists;
  split; [do n right; left; reflexivity | apply (in_present _ _ _ _ H)].

(** X13. [bridge_slave_print_opt] never overruns its 256-byte [convbuf].  When
    IFLA_BRPORT_GROUP_FWD_MASK is present it prints, under
    "group_fwd_mask_str", the names of the set bits of the mask. *)
Theorem bridge_slave_print_opt_mask :
  forall tb,
    exists out,
      bridge_slave_print_opt L E (Some tb) = Some out /\
      forall a,
        tb IFLA_BRPORT_GROUP_FWD_MASK = Some a ->
        In (sink (print_string PRINT_ANY (Some "group_fwd_mask_str")
                    (Some "group_fwd_mask_str %s ")
                    (Some (render_fwd_mask
                             (Z.land (rta_getattr_u16 (little_endian L) a) 65535)))))
           out.
Proof.
  intros tb. destruct (print_opt_some tb) as (mid & Hout & Hmid).
  eexists. split; [exact Hout|].
  intros a Ha. rewrite Ha in Hmid. subst mid.
  apply in_or_app. right. apply in_or_app. left. right. left. reflexivity.
Qed.

(** X14. IFLA_BRPORT_FAST_LEAVE is displayed twice: as "fastleave" by
    [_print_onoff], and as "mcast_fast_leave on" or "mcast_fast_leave
    off" on the text output only, with no key for the JSON output. *)
Theorem fast_leave_shown_twice :
  forall tb a,
    tb IFLA_BRPORT_FAST_LEAVE = Some a ->
    shown L E tb
      (if is_json_context E
       then print_bool PRINT_JSON (Some "fastleave") None (rta_getattr_u8 a)
       else fprintf "%s %s " [arg_s "fastleave"; arg_s (on_off (rta_getattr_u8 a))]) /\
    shown L E tb
      (sink (print_string PRINT_FP None (Some "mcast_fast_leave %s ")
               (Some (on_off (rta_getattr_u8 a))))).
Proof.
  intros tb a Ha. split; apply shown_head.
  - find_field Ha 6. unfold _print_onoff, on_off.
    destruct (is_json_context E); left; reflexivity.
  - find_field Ha 23. left. reflexivity.
Qed.

Ltac key_in_list := apply in_by_eqb; vm_compute; reflexivity.

Ltac one_call Hin Hk :=
  repeat match type of Hin with
         | In _ (_ :: _) => destruct Hin as [<- | Hin]
         | In _ [] => destruct Hin
         | In _ (map sink _) =>
             apply in_map_iff in Hin; destruct Hin as (? & <- & Hin)
         | In _ (if ?c then _ else _) => destruct c
         end;
  cbn in Hk; try discriminate Hk; injection Hk as <-; key_in_list.

(** X15. Every key that [bridge_slave_print_opt] hands to the JSON output is
    one of the 29 names of [print_opt_keys]. *)
Theorem bridge_slave_print_opt_keys :
  forall tb out c k,
    bridge_slave_print_opt L E (Some tb) = Some out ->
    In c out ->
    display_key c = Some k ->
    In k print_opt_keys.
Proof.
  intros tb out c k Hout Hin Hk.
  destruct (print_opt_some tb) as (mid & Hout' & Hmid).
  rewrite Hout' in Hout. injection Hout as <-.
  apply in_app_or in Hin. destruct Hin as [Hin | Hin];
    [|apply in_app_or in Hin; destruct Hin as [Hin | Hin]].
  - unfold print_opt_head in Hin. apply in_concat in Hin.
    destruct Hin as (field & Hfield & Hin).
    unfold present, _print_onoff, _print_timer, print_portstate in Hfield.
    repeat match type of Hfield with
           | In _ (_ :: _) => destruct Hfield as [<- | Hfield]
           end;
      [ match type of Hin with
        | In _ (match ?slot with Some _ => _ | None => _ end) =>
            destruct slot; [|destruct Hin]
        end;
        one_call Hin Hk .. | destruct Hfield ].
  - subst mid. destruct (tb IFLA_BRPORT_GROUP_FWD_MASK); one_call Hin Hk.
  - unfold print_opt_tail, present, _print_onoff in Hin.
    destruct (tb IFLA_BRPORT_VLAN_TUNNEL); [|destruct Hin].
    one_call Hin Hk.
Qed.

End DisplayFacts.

(** ** From the display back to the options *)

(** ** Values that go through an attribute *)

Lemma testbit_ones_nonneg' n m : 0 <= n -> 0 <= m -> Z.testbit (Z.ones n) m = (m <? n).
Proof. intros. apply Z.testbit_ones_nonneg; lia. Qed.

(** The little-endian value of the bytes [k], [k + 1], ... of [x]. *)
Lemma le_value_bytes x n :
  forall k,
    le_value (map (fun i => Z.land (Z.shiftr x (8 * Z.of_nat i)) 255) (seq k n)) =
      Z.land (Z.shiftr x (8 * Z.of_nat k)) (Z.ones (8 * Z.of_nat n)).
Proof.
  induction n as [|n IH]; intros k.
  - cbn. now rewrite Z.land_0_r.
  - cbn [seq map le_value fold_right]. fold (le_value (map (fun i => Z.land (Z.shiftr x (8 * Z.of_nat i)) 255) (seq (S k) n))).
    rewrite IH. apply Z.bits_inj'. intros m Hm.
    rewrite Z.lor_spec, !Z.land_spec, Z.shiftr_spec by lia.
    change 255 with (Z.ones 8). rewrite !testbit_ones_nonneg' by lia.
    destruct (Z.ltb_spec m 8).
    + rewrite Z.shiftl_spec_low by lia. rewrite orb_false_r.
      destruct (Z.ltb_spec m (8 * Z.of_nat (S n))); [|lia]. reflexivity.
    + rewrite andb_false_r. cbn [orb].
      rewrite Z.shiftl_spec by lia.
      rewrite Z.land_spec, Z.shiftr_spec, testbit_ones_nonneg' by lia.
      replace (m - 8 + 8 * Z.of_nat (S k)) with (m + 8 * Z.of_nat k) by lia.
      f_equal.
      destruct (Z.ltb_spec (m - 8) (8 * Z.of_nat n));
        destruct (Z.ltb_spec m (8 * Z.of_nat (S n))); lia || reflexivity.
Qed.

Lemma rta_getattr_u32_u32_bytes le t x :
  0 <= x < 4294967296 ->
  rta_getattr_u32 le (mk_rtattr t (u32_bytes le x)) = x.
Proof.
  intros Hx.
  assert (H : le_value [Z.land (Z.shiftr x (8 * 0)) 255; Z.land (Z.shiftr x (8 * 1)) 255;
                        Z.land (Z.shiftr x (8 * 2)) 255; Z.land (Z.shiftr x (8 * 3)) 255] = x).
  { pose proof (le_value_bytes x 4 0) as H. cbn [seq map] in H.
    change (Z.of_nat 0) with 0 in H. change (Z.of_nat 1) with 1 in H.
    change (Z.of_nat 2) with 2 in H. change (Z.of_nat 3) with 3 in H.
    rewrite H. change (8 * Z.of_nat 4) with 32. rewrite Z.land_ones by lia.
    change (8 * 0) with 0. rewrite Z.shiftr_0_r. apply Z.mod_small.
    change (2 ^ 32) with 4294967296. lia. }
  unfold rta_getattr_u32, host_value, u32_bytes, payload.
  destruct le; cbn [seq map rta_data nth rev app]; exact H.
Qed.

Section RoundTrips.

Variable L : library.
Variable E : display_env.

Ltac chain H :=
  unfold selects, bridge_slave_keywords in H; cbn [first_match] in H;
  cbn [bridge_slave_parse_opt];
  repeat match type of H with
         | context [matches ?lib ?a ?k =? 0] =>
             revert H; destruct (matches lib a k =? 0); intro H;
             try discriminate H
         end;
  cbv beta iota.

Tactic Notation "field" hyp(H) integer(n) :=
  apply shown_head; unfold print_opt_head; apply in_concat; eexists;
  split; [do n right; left; reflexivity | rewrite H; cbn [present]].

Lemma on_off_step name v type rest s :
  v = "on" \/ v = "off" ->
  (rc <- bridge_slave_parse_on_off name v type ;;
   if truthy rc then ret (-1) else bridge_slave_parse_opt L rest) s =
  (addattr8 1024 type (if String.eqb v "on" then 1 else 0) ;;
   bridge_slave_parse_opt L rest) s.
Proof.
  intros Hv. unfold bridge_slave_parse_on_off.
  destruct Hv as [-> | ->]; cbn [String.eqb Ascii.eqb Bool.eqb];
    unfold bind, addattr8, with_nlmsg, ret;
    destruct (addattr_l _ _ _ _); reflexivity.
Qed.

(** X16. Each of the eleven on/off attributes is displayed under a name that
    the parser reads back: the display prints the name with "on" or
    "off" (or a boolean in JSON), and the option that selects this name
    with "on" or "off" appends the same attribute with 1 or 0. *)
Theorem onoff_names_parse_back :
  forall type flag,
    In (type, flag) onoff_fields ->
    (forall tb a,
        tb type = Some a ->
        shown L E tb
          (if is_json_context E
           then print_bool PRINT_JSON (Some flag) None (rta_getattr_u8 a)
           else fprintf "%s %s " [arg_s flag; arg_s (on_off (rta_getattr_u8 a))])) /\
    (forall kw v rest s,
        selects L kw flag ->
        v = "on" \/ v = "off" ->
        bridge_slave_parse_opt L (kw :: v :: rest) s =
          (addattr8 1024 type (if String.eqb v "on" then 1 else 0) ;;
           bridge_slave_parse_opt L rest) s).
Proof.
  intros type flag Hin. unfold onoff_fields in Hin.
  repeat match type of Hin with
         | In _ (_ :: _) => destruct Hin as [Hin | Hin]; [injection Hin as <- <-|]
         | In _ [] => destruct Hin
         end.
  all: split;
    [ intros tb a Ha
    | intros kw v rest s Hs Hv; chain Hs; apply on_off_step; exact Hv ].
  - field Ha 3. unfold _print_onoff, on_off. destruct (is_json_context E); left; reflexivity.
  - field Ha 4. unfold _print_onoff, on_off. destruct (is_json_context E); left; reflexivity.
  - field Ha 5. unfold _print_onoff, on_off. destruct (is_json_context E); left; reflexivity.
  - field Ha 6. unfold _print_onoff, on_off. destruct (is_json_context E); left; reflexivity.
  - field Ha 7. unfold _print_onoff, on_off. destruct (is_json_context E); left; reflexivity.
  - field Ha 8. unfold _print_onoff, on_off. destruct (is_json_context E); left; reflexivity.
  - field Ha 20. unfold _print_onoff, on_off. destruct (is_json_context E); left; reflexivity.
  - field Ha 21. unfold _print_onoff, on_off. destruct (is_json_context E); left; reflexivity.
  - field Ha 24. unfold _print_onoff, on_off. destruct (is_json_context E); left; reflexivity.
  - field Ha 25. unfold _print_onoff, on_off. destruct (is_json_context E); left; reflexivity.
  - apply shown_tail. unfold print_opt_tail. rewrite Ha. cbn [present].
    unfold _print_onoff, on_off. destruct (is_json_context E); left; reflexivity.
Qed.

(** X17. "priority" round trip: the option appends IFLA_BRPORT_PRIORITY with
    the 16-bit value, and the display of that attribute prints the
    value back. *)
Theorem priority_round_trip :
  forall kw v x rest s,
    selects L kw "priority" ->
    get_u16 L v 0 = Some x ->
    0 <= x < 65536 ->
    bridge_slave_parse_opt L (kw :: v :: rest) s =
      (addattr16 L 1024 IFLA_BRPORT_PRIORITY x ;;
       bridge_slave_parse_opt L rest) s /\
    forall tb,
      tb IFLA_BRPORT_PRIORITY =
        Some (mk_rtattr IFLA_BRPORT_PRIORITY (u16_bytes (little_endian L) x)) ->
      shown L E tb
        (sink (print_int PRINT_ANY (Some "priority") (Some "priority %d ") x)).
Proof.
  intros kw v x rest s Hs Hg Hx. split.
  - chain Hs. rewrite Hg. reflexivity.
  - intros tb Ha. field Ha 1. rewrite rta_getattr_u16_u16_bytes by exact Hx.
    left. reflexivity.
Qed.

(** X18. "cost" round trip: the option appends IFLA_BRPORT_COST with the
    32-bit value, and the display of that attribute hands the value to
    [print_int] as an [int]: a cost below 2^31 is printed back as it was
    given, a cost from 2^31 up is printed 2^32 lower, as a negative
    number. *)
Theorem cost_round_trip :
  forall kw v x rest s,
    selects L kw "cost" ->
    get_u32 L v 0 = Some x ->
    0 <= x < 4294967296 ->
    bridge_slave_parse_opt L (kw :: v :: rest) s =
      (addattr32 L 1024 IFLA_BRPORT_COST x ;;
       bridge_slave_parse_opt L rest) s /\
    forall tb,
      tb IFLA_BRPORT_COST =
        Some (mk_rtattr IFLA_BRPORT_COST (u32_bytes (little_endian L) x)) ->
      shown L E tb
        (sink (print_int PRINT_ANY (Some "cost") (Some "cost %d ")
                 (if x <? 2147483648 then x else x - 4294967296))).
Proof.
  intros kw v x rest s Hs Hg Hx. split.
  - chain Hs. rewrite Hg. reflexivity.
  - intros tb Ha. field Ha 2. rewrite rta_getattr_u32_u32_bytes by exact Hx.
    left. reflexivity.
Qed.

(** X19. The three timers are displayed as seconds and hundredths: for a
    microsecond part within a second, the second number is between 0 and
    99, under the name of the timer on the text output and as
    "%i.%.2i" on the JSON writer. *)
Theorem timers_seconds_and_hundredths :
  forall type attr tb a sec usec,
    In (type, attr) timer_fields ->
    tb type = Some a ->
    jiffies_to_tv E (rta_getattr_u64 (little_endian L) a) = (sec, usec) ->
    0 <= usec < 1000000 ->
    0 <= usec / 10000 <= 99 /\
    shown L E tb
      (if is_json_context E
       then jsonw_printf "%i.%.2i"
              [arg_i (int_of_long sec); arg_i (usec / 10000)]
       else fprintf "%s %4i.%.2i "
              [arg_s attr; arg_i (int_of_long sec); arg_i (usec / 10000)]).
Proof.
  intros type attr tb a sec usec Hin Ha Htv Hu.
  assert (Hq : Z.quot (int_of_long usec) 10000 = usec / 10000).
  { unfold int_of_long.
    rewrite (Z.mod_small (usec + 2147483648) 4294967296) by lia.
    replace (usec + 2147483648 - 2147483648) with usec by lia.
    apply Z.quot_div_nonneg; lia. }
  split.
  { split; [apply Z.div_pos; lia|].
    assert (usec / 10000 < 100) by (apply Z.div_lt_upper_bound; lia). lia. }
  unfold timer_fields in Hin.
  repeat match type of Hin with
         | In _ (_ :: _) => destruct Hin as [Hin | Hin]; [injection Hin as <- <-|]
         | In _ [] => destruct Hin
         end.
  - field Ha 15. unfold _print_timer. rewrite Htv. cbn [fst snd]. rewrite Hq.
    destruct (is_json_context E); [right; left | left]; reflexivity.
  - field Ha 16. unfold _print_timer. rewrite Htv. cbn [fst snd]. rewrite Hq.
    destruct (is_json_context E); [right; left | left]; reflexivity.
  - field Ha 17. unfold _print_timer. rewrite Htv. cbn [fst snd]. rewrite Hq.
    destruct (is_json_context E); [right; left | left]; reflexivity.
Qed.

(** X20. An option that takes a value and comes last, without one, ends the
    command with "Command line is not complete" before anything is
    appended or printed. *)
Theorem value_keyword_needs_value :
  forall kw k s,
    selects L kw k ->
    In k value_keywords ->
    bridge_slave_parse_opt L [kw] s = (Stopped IncompleteCommand, s).
Proof.
  intros kw k s Hs Hin. unfold value_keywords in Hin.
  repeat match type of Hin with
         | In _ (_ :: _) => destruct Hin as [<- | Hin]
         | In _ [] => destruct Hin
         end; chain Hs; reflexivity.
Qed.

(** X21. A token that no keyword matches, after options that parsed, prints
    "bridge_slave: unknown option" and the usage text and returns -1; the
    attributes of the options before it stay in the message. *)
Theorem unknown_option_after_valid_ones :
  forall a bad s s1,
    bridge_slave_parse_opt L a s = (Val 0, s1) ->
    first_match L bad bridge_slave_keywords = None ->
    bridge_slave_parse_opt L (a ++ [bad]) s =
      (Val (-1), add_stderr (add_stderr s1 (unknown_option bad)) print_explain_text).
Proof.
  intros a bad s s1 Ha Hbad.
  rewrite (bridge_slave_parse_opt_app_ok L a [bad] s s1 Ha).
  unfold bridge_slave_keywords in Hbad. cbn [first_match] in Hbad.
  cbn [bridge_slave_parse_opt].
  repeat match type of Hbad with
         | context [matches ?lib ?a ?k =? 0] =>
             revert Hbad; destruct (matches lib a k =? 0); intro Hbad;
             try discriminate Hbad
         end.
  reflexivity.
Qed.

End RoundTrips.

(** ** The further properties at work on the sample host *)

Lemma fou_parse_opt_failure_keeps_request_witness :
  fst (fou_parse_opt linux_host ["gue"] true start) <> Val 0 /\
  nlmsg (snd (fou_parse_opt linux_host ["gue"] true start)) = nlmsg start.
Proof.
  split; [discriminate|].
  apply (fou_parse_opt_failure_keeps_request linux_host ["gue"] true start).
  discriminate.
Defined.

Lemma fou_parse_opt_loop_app_witness :
  fou_parse_opt_loop linux_host ["gue"] fou_locals_init start =
    (Val (inl (mk_fou_locals 0 0 0 true 0 AF_INET)), start) /\
  fou_parse_opt_loop linux_host (["gue"] ++ ["port"; "5555"]) fou_locals_init start =
    fou_parse_opt_loop linux_host ["port"; "5555"]
      (mk_fou_locals 0 0 0 true 0 AF_INET) start.
Proof.
  split; [reflexivity|].
  apply (fou_parse_opt_loop_app linux_host ["gue"] ["port"; "5555"]
           fou_locals_init start (mk_fou_locals 0 0 0 true 0 AF_INET) start).
  reflexivity.
Defined.

Lemma do_add_sends_what_was_parsed_witness :
  fou_parse_opt_loop linux_host ["port"; "5555"; "gue"] fou_locals_init
    (set_nlmsg start (fou_request linux_host FOU_CMD_ADD)) =
    (Val (inl gue_locals), set_nlmsg start (fou_request linux_host FOU_CMD_ADD)) /\
  fou_locals_ok true gue_locals /\
  do_add linux_host ["port"; "5555"; "gue"] start =
    (Val 0,
     mk_state (fou_built linux_host FOU_CMD_ADD gue_locals) []
       [fou_built linux_host FOU_CMD_ADD gue_locals]).
Proof.
  assert (Hok : fou_locals_ok true gue_locals).
  { unfold fou_locals_ok. cbn. repeat split; [lia | intros _; now right | now left]. }
  split; [reflexivity|]. split; [exact Hok|].
  apply (do_add_sends_what_was_parsed linux_host ["port"; "5555"; "gue"] start
           gue_locals); [reflexivity | exact Hok].
Defined.

Lemma do_del_sends_what_was_parsed_witness :
  fou_parse_opt_loop linux_host ["port"; "5555"] fou_locals_init
    (set_nlmsg start (fou_request linux_host FOU_CMD_DEL)) =
    (Val (inl port_locals), set_nlmsg start (fou_request linux_host FOU_CMD_DEL)) /\
  fou_locals_ok false port_locals /\
  do_del linux_host ["port"; "5555"] start =
    (Val 0,
     mk_state (fou_built linux_host FOU_CMD_DEL port_locals) []
       [fou_built linux_host FOU_CMD_DEL port_locals]).
Proof.
  assert (Hok : fou_locals_ok false port_locals).
  { unfold fou_locals_ok. cbn. repeat split; [lia | discriminate | now left]. }
  split; [reflexivity|]. split; [exact Hok|].
  apply (do_del_sends_what_was_parsed linux_host ["port"; "5555"] start
           port_locals); [reflexivity | exact Hok].
Defined.

Lemma print_fou_mapping_of_built_witness :
  0 <= 5555 < 65536 /\
  port gue_locals = htons (little_endian linux_host) 5555 /\
  (family gue_locals = AF_INET \/ family gue_locals = AF_INET6) /\
  print_fou_mapping linux_host (fou_built linux_host FOU_CMD_ADD gue_locals) =
    (0,
     [open_json_object None;
      print_uint PRINT_ANY (Some "port") (Some "port %u") 5555;
      print_null PRINT_ANY (Some "gue") (Some " gue") None;
      print_string PRINT_JSON (Some "family") None (Some "inet");
      print_string PRINT_FP None (Some nl) None;
      close_json_object]).
Proof.
  split; [lia|]. split; [reflexivity|]. split; [left; reflexivity|].
  apply (print_fou_mapping_of_built linux_host FOU_CMD_ADD gue_locals 5555);
    [lia | reflexivity | left; reflexivity].
Defined.

Lemma ipproto_name_before_number_witness :
  matches linux_host "port" "port" = 0 /\
  get_u16 linux_host "5555" 0 = Some 5555 /\
  1 <= 5555 <= 65535 /\
  matches linux_host "ipproto" "port" <> 0 /\
  matches linux_host "ipproto" "ipproto" = 0 /\
  getprotobyname linux_host "ip" = Some 0 /\
  sent (snd (do_add linux_host ["port"; "5555"; "ipproto"; "ip"] start)) =
    [fou_built linux_host FOU_CMD_ADD (mk_fou_locals 45845 1 0 false 1 AF_INET)].
Proof.
  split; [reflexivity|]. split; [reflexivity|]. split; [lia|].
  split; [discriminate|]. split; [reflexivity|]. split; [reflexivity|].
  apply (proj1 (ipproto_name_before_number linux_host "port" "5555" 5555
                  "ipproto" "ip" start eq_refl eq_refl
                  ltac:(lia) ltac:(discriminate) eq_refl) 0).
  reflexivity.
Defined.

Lemma bridge_slave_parse_opt_app_witness :
  bridge_slave_parse_opt linux_host ["fdb_flush"] start =
    (Val 0, snd (bridge_slave_parse_opt linux_host ["fdb_flush"] start)) /\
  bridge_slave_parse_opt linux_host (["fdb_flush"] ++ ["state"; "3"]) start =
    bridge_slave_parse_opt linux_host ["state"; "3"]
      (snd (bridge_slave_parse_opt linux_host ["fdb_flush"] start)).
Proof.
  split; [reflexivity|].
  apply (proj1 (bridge_slave_parse_opt_app linux_host ["fdb_flush"]
                  ["state"; "3"] start (Val 0)
                  (snd (bridge_slave_parse_opt linux_host ["fdb_flush"] start))
                  eq_refl)).
  reflexivity.
Defined.

Lemma value_keyword_needs_value_witness :
  selects linux_host "cost" "cost" /\
  In "cost" value_keywords /\
  bridge_slave_parse_opt linux_host ["cost"] start =
    (Stopped IncompleteCommand, start).
Proof.
  assert (Hsel : selects linux_host "cost" "cost") by reflexivity.
  assert (Hin : In "cost" value_keywords) by (cbn; tauto).
  split; [exact Hsel|]. split; [exact Hin|].
  apply (value_keyword_needs_value linux_host "cost" "cost" start Hsel Hin).
Defined.

Lemma unknown_option_after_valid_ones_witness :
  bridge_slave_parse_opt linux_host ["fdb_flush"] start =
    (Val 0, snd (bridge_slave_parse_opt linux_host ["fdb_flush"] start)) /\
  first_match linux_host "bogus" bridge_slave_keywords = None /\
  bridge_slave_parse_opt linux_host (["fdb_flush"] ++ ["bogus"]) start =
    (Val (-1),
     add_stderr
       (add_stderr (snd (bridge_slave_parse_opt linux_host ["fdb_flush"] start))
          (unknown_option "bogus"))
       print_explain_text).
Proof.
  split; [reflexivity|]. split; [reflexivity|].
  apply (unknown_option_after_valid_ones linux_host ["fdb_flush"] "bogus" start
           (snd (bridge_slave_parse_opt linux_host ["fdb_flush"] start)));
    reflexivity.
Defined.

Lemma onoff_names_parse_back_witness :
  In (IFLA_BRPORT_MODE, "hairpin") onoff_fields /\
  shown linux_host text_display (one_attr (mk_rtattr IFLA_BRPORT_MODE [1]))
    (fprintf "%s %s " [arg_s "hairpin"; arg_s "on"]) /\
  bridge_slave_parse_opt linux_host ["hairpin"; "on"] start =
    (addattr8 1024 IFLA_BRPORT_MODE 1 ;;
     bridge_slave_parse_opt linux_host []) start.
Proof.
  assert (Hin : In (IFLA_BRPORT_MODE, "hairpin") onoff_fields)
    by (left; reflexivity).
  split; [exact Hin|].
  destruct (onoff_names_parse_back linux_host text_display IFLA_BRPORT_MODE
              "hairpin" Hin) as [Hshow Hparse].
  split.
  - apply (Hshow (one_attr (mk_rtattr IFLA_BRPORT_MODE [1]))
             (mk_rtattr IFLA_BRPORT_MODE [1])).
    reflexivity.
  - apply (Hparse "hairpin" "on" [] start); [reflexivity | left; reflexivity].
Defined.

Lemma priority_round_trip_witness :
  selects linux_host "priority" "priority" /\
  get_u16 linux_host "32" 0 = Some 32 /\
  0 <= 32 < 65536 /\
  bridge_slave_parse_opt linux_host ["priority"; "32"] start =
    (addattr16 linux_host 1024 IFLA_BRPORT_PRIORITY 32 ;;
     bridge_slave_parse_opt linux_host []) start /\
  shown linux_host text_display
    (one_attr (mk_rtattr IFLA_BRPORT_PRIORITY (u16_bytes true 32)))
    (sink (print_int PRINT_ANY (Some "priority") (Some "priority %d ") 32)).
Proof.
  assert (Hsel : selects linux_host "priority" "priority") by reflexivity.
  assert (Hget : get_u16 linux_host "32" 0 = Some 32) by reflexivity.
  assert (Hx : 0 <= 32 < 65536) by lia.
  split; [exact Hsel|]. split; [exact Hget|]. split; [exact Hx|].
  destruct (priority_round_trip linux_host text_display "priority" "32" 32 []
              start Hsel Hget Hx) as [Hparse Hshow].
  split; [exact Hparse|]. apply Hshow. reflexivity.
Defined.

Lemma cost_round_trip_witness :
  selects linux_host "cost" "cost" /\
  get_u32 linux_host "100" 0 = Some 100 /\
  0 <= 100 < 4294967296 /\
  bridge_slave_parse_opt linux_host ["cost"; "100"] start =
    (addattr32 linux_host 1024 IFLA_BRPORT_COST 100 ;;
     bridge_slave_parse_opt linux_host []) start /\
  shown linux_host text_display
    (one_attr (mk_rtattr IFLA_BRPORT_COST (u32_bytes true 100)))
    (sink (print_int PRINT_ANY (Some "cost") (Some "cost %d ") 100)).
Proof.
  assert (Hsel : selects linux_host "cost" "cost") by reflexivity.
  assert (Hget : get_u32 linux_host "100" 0 = Some 100) by reflexivity.
  assert (Hx : 0 <= 100 < 4294967296) by lia.
  split; [exact Hsel|]. split; [exact Hget|]. split; [exact Hx|].
  destruct (cost_round_trip linux_host text_display "cost" "100" 100 []
              start Hsel Hget Hx) as [Hparse Hshow].
  split; [exact Hparse|]. apply Hshow. reflexivity.
Defined.

Example cost_above_int_max_displayed_negative :
  bridge_slave_print_opt linux_host text_display
    (Some (one_attr (mk_rtattr IFLA_BRPORT_COST [255; 255; 255; 255]))) =
    Some [sink (print_int PRINT_ANY (Some "cost") (Some "cost %d ") (-1))].
Proof. reflexivity. Qed.

Lemma bitmask2str_fwd_mask_any_buffer_witness :
  88 <= 88 /\
  _bitmask2str 16389 88 fwd_mask_tbl = Some "stp,lacp,lldp".
Proof.
  split; [lia|].
  apply (bitmask2str_fwd_mask_any_buffer 16389 88). lia.
Defined.

Lemma fast_leave_shown_twice_witness :
  one_attr (mk_rtattr IFLA_BRPORT_FAST_LEAVE [1]) IFLA_BRPORT_FAST_LEAVE =
    Some (mk_rtattr IFLA_BRPORT_FAST_LEAVE [1]) /\
  shown linux_host json_display (one_attr (mk_rtattr IFLA_BRPORT_FAST_LEAVE [1]))
    (print_bool PRINT_JSON (Some "fastleave") None 1) /\
  shown linux_host json_display (one_attr (mk_rtattr IFLA_BRPORT_FAST_LEAVE [1]))
    (sink (print_string PRINT_FP None (Some "mcast_fast_leave %s ") (Some "on"))).
Proof.
  split; [reflexivity|].
  apply (fast_leave_shown_twice linux_host json_display
           (one_attr (mk_rtattr IFLA_BRPORT_FAST_LEAVE [1]))
           (mk_rtattr IFLA_BRPORT_FAST_LEAVE [1])).
  reflexivity.
Defined.

Lemma bridge_slave_print_opt_keys_witness :
  bridge_slave_print_opt linux_host json_display
    (Some (one_attr (mk_rtattr IFLA_BRPORT_FAST_LEAVE [1]))) =
    Some [print_bool PRINT_JSON (Some "fastleave") None 1;
          sink (print_string PRINT_FP None (Some "mcast_fast_leave %s ")
                  (Some "on"))] /\
  In "fastleave" print_opt_keys.
Proof.
  split; [reflexivity|].
  apply (bridge_slave_print_opt_keys linux_host json_display
           (one_attr (mk_rtattr IFLA_BRPORT_FAST_LEAVE [1]))
           [print_bool PRINT_JSON (Some "fastleave") None 1;
            sink (print_string PRINT_FP None (Some "mcast_fast_leave %s ")
                    (Some "on"))]
           (print_bool PRINT_JSON (Some "fastleave") None 1) "fastleave");
    [reflexivity | left; reflexivity | reflexivity].
Defined.

Lemma timers_seconds_and_hundredths_witness :
  In (IFLA_BRPORT_HOLD_TIMER, "hold_timer") timer_fields /\
  jiffies_to_tv text_display
    (rta_getattr_u64 (little_endian linux_host)
       (mk_rtattr IFLA_BRPORT_HOLD_TIMER [250; 0; 0; 0; 0; 0; 0; 0])) =
    (2, 500000) /\
  0 <= 500000 / 10000 <= 99 /\
  shown linux_host text_display
    (one_attr (mk_rtattr IFLA_BRPORT_HOLD_TIMER [250; 0; 0; 0; 0; 0; 0; 0]))
    (fprintf "%s %4i.%.2i "
       [arg_s "hold_timer"; arg_i (int_of_long 2); arg_i (500000 / 10000)]).
Proof.
  assert (Hin : In (IFLA_BRPORT_HOLD_TIMER, "hold_timer") timer_fields)
    by (left; reflexivity).
  split; [exact Hin|]. split; [reflexivity|].
  apply (timers_seconds_and_hundredths linux_host text_display
           IFLA_BRPORT_HOLD_TIMER "hold_timer"
           (one_attr (mk_rtattr IFLA_BRPORT_HOLD_TIMER [250; 0; 0; 0; 0; 0; 0; 0]))
           (mk_rtattr IFLA_BRPORT_HOLD_TIMER [250; 0; 0; 0; 0; 0; 0; 0])
           2 500000 Hin); [reflexivity | reflexivity | lia].
Defined.
